(** * Cloudflare adapter: generation of [_routes.json]

    A shallow embedding of [packages/cloudflare/src/utils/generate-routes.ts]
    and the properties of its segment parser, pattern compiler, comparator,
    deduplication pass and manifest selection.

    Conventions.  A JavaScript string is a [string]: one [ascii] per UTF-16
    code unit, so the embedding covers strings whose code units are below
    256.  Among those the line terminators are LF and CR.  Arrays are lists;
    an array index is a [nat].  A call that may throw returns an [outcome].
    The files found by [glob] are an argument, the calls of [console.log]
    are left out, and the manifest is the object given to [JSON.stringify]
    for [writeFile]. *)

From Stdlib Require Import Ascii String.
From stdpp Require Import base list strings sorting.
From Stdlib Require Import ZArith Lia.

Local Open Scope string_scope.

(** ** JavaScript values and helpers *)

Module Js.

Inductive exn : Type :=
| Error (message : string)
| SyntaxError.

(** [OutOfModel]: the run leaves the part of JavaScript embedded here
    (see [RegExp.compile]). *)
Inductive outcome (A : Type) : Type :=
| Ok (a : A)
| Throw (e : exn)
| OutOfModel.
Global Arguments Ok {A} a.
Global Arguments Throw {A} e.
Global Arguments OutOfModel {A}.

Global Instance outcome_ret : MRet outcome := λ A a, Ok a.

(** Sequencing: a throw ends the run. *)
Global Instance outcome_bind : MBind outcome := λ A B k m,
  match m with
  | Ok a => k a
  | Throw e => Throw e
  | OutOfModel => OutOfModel
  end.

Definition code (c : ascii) : N := Ascii.N_of_ascii c.

Definition between (lo hi : N) (c : ascii) : bool :=
  (N.leb lo (code c) && N.leb (code c) hi)%bool.

(** LineTerminator, restricted to code units below 256. *)
Definition isLineTerminator (c : ascii) : bool :=
  (Ascii.eqb c "010" || Ascii.eqb c "013")%bool.

(** The class [\w]: [A-Za-z0-9_]. *)
Definition isWord (c : ascii) : bool :=
  (between 97 122 c || between 65 90 c || between 48 57 c || Ascii.eqb c "_")%bool.

Fixpoint all (p : ascii → bool) (s : string) : bool :=
  match s with
  | EmptyString => true
  | String c s' => (p c && all p s')%bool
  end.

Definition isEmpty (s : string) : bool :=
  match s with EmptyString => true | _ => false end.

(** [s.split(sep)] for a one-character separator. *)
Fixpoint splitOn (sep : ascii) (piece s : string) : list string :=
  match s with
  | EmptyString => [piece]
  | String c s' =>
      if Ascii.eqb c sep then piece :: splitOn sep "" s'
      else splitOn sep (piece +:+ String c "") s'
  end.

(** [a.join(sep)]. *)
Definition join (sep : string) (a : list string) : string := String.concat sep a.

(** [a.filter(Boolean)] on an array of strings. *)
Definition filterBoolean (a : list string) : list string :=
  List.filter (fun s => negb (isEmpty s)) a.

End Js.

(** ** Helpers of [./assets.js] *)

Module Assets.

(** Modelled from the spec: [removeLeadingForwardSlash] of [./assets.js],
    which is not part of the sources at hand; the specification says the
    base path has its leading separator stripped. *)
Definition removeLeadingForwardSlash (path : string) : string :=
  match path with
  | String "/" rest => rest
  | _ => path
  end.

Fixpoint dropLastSlash (path : string) : string :=
  match path with
  | EmptyString => EmptyString
  | String c EmptyString => if Ascii.eqb c "/" then EmptyString else path
  | String c rest => String c (dropLastSlash rest)
  end.

(** Modelled from the spec: [removeTrailingForwardSlash] of [./assets.js],
    which is not part of the sources at hand; the specification says the
    base path has its trailing separator stripped. *)
Definition removeTrailingForwardSlash (path : string) : string :=
  dropLastSlash path.

End Assets.

(** ** The regular expressions built at run time

    [deduplicateInPlace] builds a [RegExp] from a joined pattern, so the
    pattern text is data.  The embedding covers the sources made of ordinary
    characters, [.], [$], the quantifiers [*] and [+] on one character, and
    the class [[*\w\/]] that [deduplicateInPlace] inserts; a source with
    another metacharacter is [OutOfModel].  The flags are always [gm]. *)

Module RegExp.
Import Js.

Inductive atom : Type :=
| Chr (c : ascii)
| AnyChar
| PathClass.

Inductive term : Type :=
| One (a : atom)
| Star (a : atom)
| Plus (a : atom)
| EndOfLine.

Definition accepts (a : atom) (c : ascii) : bool :=
  match a with
  | Chr d => Ascii.eqb c d
  | AnyChar => negb (isLineTerminator c)
  | PathClass => (Ascii.eqb c "*" || isWord c || Ascii.eqb c "/")%bool
  end.

(** A greedy run of [a], giving characters back until [k] succeeds. *)
Fixpoint greedy (a : atom) (k : string → option string) (s : string)
  : option string :=
  match s with
  | EmptyString => k s
  | String c s' =>
      if accepts a c then
        match greedy a k s' with
        | Some r => Some r
        | None => k s
        end
      else k s
  end.

(** The backtracking matcher at the first character of [s]; the result is
    what follows the match.  [$] is the multiline one. *)
Fixpoint matchTerms (ts : list term) (s : string) : option string :=
  match ts with
  | [] => Some s
  | One a :: ts' =>
      match s with
      | String c s' => if accepts a c then matchTerms ts' s' else None
      | EmptyString => None
      end
  | Star a :: ts' => greedy a (matchTerms ts') s
  | Plus a :: ts' =>
      match s with
      | String c s' => if accepts a c then greedy a (matchTerms ts') s' else None
      | EmptyString => None
      end
  | EndOfLine :: ts' =>
      match s with
      | EmptyString => matchTerms ts' s
      | String c _ => if isLineTerminator c then matchTerms ts' s else None
      end
  end.

(** Characters with a meaning of their own in a pattern that the embedding
    does not cover. *)
Definition isUncovered (c : ascii) : bool :=
  (Ascii.eqb c "\" || Ascii.eqb c "^" || Ascii.eqb c "|" || Ascii.eqb c "?"
   || Ascii.eqb c "(" || Ascii.eqb c ")" || Ascii.eqb c "[" || Ascii.eqb c "]"
   || Ascii.eqb c "{" || Ascii.eqb c "}")%bool.

Definition flush (pending : option atom) (ts : list term) : list term :=
  match pending with
  | Some a => One a :: ts
  | None => ts
  end.

(** The pattern parser; [pending] is the atom just read, which a
    quantifier may still take.  A quantifier with nothing to repeat is a
    [SyntaxError]. *)
Fixpoint parse (pending : option atom) (src : string) : outcome (list term) :=
  match src with
  | EmptyString => Ok (flush pending [])
  | String "[" (String "*" (String "\" (String "w"
      (String "\" (String "/" (String "]" rest)))))) =>
      ts ← parse (Some PathClass) rest; Ok (flush pending ts)
  | String c rest =>
      if Ascii.eqb c "*" then
        match pending with
        | Some a => ts ← parse None rest; Ok (Star a :: ts)
        | None => Throw SyntaxError
        end
      else if Ascii.eqb c "+" then
        match pending with
        | Some a => ts ← parse None rest; Ok (Plus a :: ts)
        | None => Throw SyntaxError
        end
      else if Ascii.eqb c "$" then
        ts ← parse None rest; Ok (flush pending (EndOfLine :: ts))
      else if Ascii.eqb c "." then
        ts ← parse (Some AnyChar) rest; Ok (flush pending ts)
      else if isUncovered c then OutOfModel
      else ts ← parse (Some (Chr c)) rest; Ok (flush pending ts)
  end.

(** A [RegExp] object with the flags [gm]. *)
Record t : Type := mk {
  terms : list term;
  lastIndex : nat
}.

(** [new RegExp(source, 'gm')]. *)
Definition create (source : string) : outcome t :=
  ts ← parse None source; Ok (mk ts 0).

Fixpoint skip (n : nat) (s : string) : string :=
  match n, s with
  | S n', String _ s' => skip n' s'
  | _, _ => s
  end.

(** The first start position, left to right, at which the pattern
    matches. *)
Fixpoint search (ts : list term) (s : string) : option string :=
  match matchTerms ts s with
  | Some rest => Some rest
  | None =>
      match s with
      | EmptyString => None
      | String _ s' => search ts s'
      end
  end.

(** [regexp.test(str)] of a global [RegExp]: the search starts at
    [lastIndex]; a match leaves [lastIndex] at its end, a failure resets
    it to 0. *)
Definition test (re : t) (str : string) : bool * t :=
  if Nat.ltb (String.length str) (lastIndex re) then (false, mk (terms re) 0)
  else
    match search (terms re) (skip (lastIndex re) str) with
    | Some rest => (true, mk (terms re) (String.length str - String.length rest))
    | None => (false, mk (terms re) 0)
    end.

End RegExp.

(** ** [generate-routes.ts] *)

Module GenerateRoutes.
Import Js.

(** [RoutePart] of Astro. *)
Record RoutePart : Type := mkPart {
  content : string;
  dynamic : bool;
  spread : bool
}.

(** *** [getParts] *)

(** [.+?] followed by the continuation [k]: at least one character that is
    not a line terminator, the shortest run first. *)
Fixpoint dotPlusLazy {A} (k : string → string → option A) (seen s : string)
  : option A :=
  match s with
  | EmptyString => None
  | String c s' =>
      if isLineTerminator c then None
      else
        let seen' := seen +:+ String c "" in
        match k seen' s' with
        | Some r => Some r
        | None => dotPlusLazy k seen' s'
        end
  end.

(** First alternative of the group, then the closing bracket:
    [.+?\(.+?\)] and [\]]. *)
Definition matchCustom (t : string) : option (string * string) :=
  dotPlusLazy
    (fun name r1 =>
       match r1 with
       | String "(" r2 =>
           dotPlusLazy
             (fun pat r3 =>
                match r3 with
                | String ")" (String "]" r4) =>
                    Some (name +:+ "(" +:+ pat +:+ ")", r4)
                | _ => None
                end)
             "" r2
       | _ => None
       end)
    "" t.

(** Second alternative of the group, then the closing bracket:
    [.+?] and [\]]. *)
Definition matchPlain (t : string) : option (string * string) :=
  dotPlusLazy
    (fun name r =>
       match r with
       | String "]" r' => Some (name, r')
       | _ => None
       end)
    "" t.

(** [/\[(.+?\(.+?\)|.+?)\]/] tried at the first character of [s]: the
    captured group and what follows the match. *)
Definition matchParam (s : string) : option (string * string) :=
  match s with
  | String "[" t =>
      match matchCustom t with
      | Some m => Some m
      | None => matchPlain t
      end
  | _ => None
  end.

(** [part.split(/\[(.+?\(.+?\)|.+?)\]/)]: [piece] is the text since the
    end of the last match, [s] what is left to scan. *)
Fixpoint splitParam (fuel : nat) (piece s : string) : list string :=
  match s with
  | EmptyString => [piece]
  | String c s' =>
      match fuel with
      | O => [piece +:+ s]
      | S fuel' =>
          match matchParam s with
          | Some (cap, rest) => piece :: cap :: splitParam fuel' "" rest
          | None => splitParam fuel' (piece +:+ String c "") s'
          end
      end
  end.

Definition noParen (s : string) : bool :=
  all (fun c => negb (Ascii.eqb c "(")) s.

(** Group 1 of [/([^(]+)$/.exec(str)]: the first position from which the
    rest of the string is free of an opening parenthesis. *)
Fixpoint execParamName (str : string) : option string :=
  match str with
  | EmptyString => None
  | String c rest =>
      if (negb (Ascii.eqb c "(") && noParen rest)%bool then Some str
      else execParamName rest
  end.

(** The class [[\w$]]. *)
Definition isNameChar (c : ascii) : bool := (isWord c || Ascii.eqb c "$")%bool.

(** [/^[\w$]+$/]. *)
Definition isName (s : string) : bool := (negb (isEmpty s) && all isNameChar s)%bool.

(** [/^(?:\.\.\.)?[\w$]+$/.test(content)]. *)
Definition testParamName (content : string) : bool :=
  match content with
  | String "." (String "." (String "." rest)) => (isName rest || isName content)%bool
  | _ => isName content
  end.

(** [/^\.{3}.+$/.test(content)]. *)
Definition testSpread (content : string) : bool :=
  match content with
  | String "." (String "." (String "." rest)) =>
      (negb (isEmpty rest) && all (fun c => negb (isLineTerminator c)) rest)%bool
  | _ => false
  end.

Definition paramError : exn :=
  Error "Parameter name must match /^[a-zA-Z0-9_$]+$/".

(** The callback of [.map((str, i) => ...)], from index [i] on. *)
Fixpoint getPartsFrom (i : nat) (strs : list string) (result : list RoutePart)
  : outcome (list RoutePart) :=
  match strs with
  | [] => Ok result
  | str :: strs' =>
      if isEmpty str then getPartsFrom (S i) strs' result
      else
        let dynamic := Nat.eqb (i mod 2) 1 in
        match (if dynamic then execParamName str else Some str) with
        | None => Throw paramError
        | Some content =>
            if (isEmpty content || (dynamic && negb (testParamName content)))%bool
            then Throw paramError
            else
              getPartsFrom (S i) strs'
                (result ++ [mkPart content dynamic (dynamic && testSpread content)])
        end
  end.

Definition getParts (part : string) : outcome (list RoutePart) :=
  getPartsFrom 0 (splitParam (String.length part) "" part) [].

(** *** [segmentsToCfSyntax] *)

(** The fields of [AstroConfig] that the pattern code reads. *)
Record AstroConfig : Type := mkConfig {
  base : string;
  assetsPrefix : option string
}.

Definition token (segment : RoutePart) : string :=
  if dynamic segment then "*" else content segment.

Definition segmentsToCfSyntax (segments : list (list RoutePart)) (_config : AstroConfig)
  : list string :=
  match segments with
  | [] => [""; ""]
  | _ =>
      [Assets.removeLeadingForwardSlash (Assets.removeTrailingForwardSlash (base _config))]
        ++ map token (concat segments)
  end.

(** *** [deduplicateInPlace] *)

(** [/^(\*\/)*\*$/]: the text from here to the end is a run of
    wildcards. *)
Fixpoint isWildcardRun (s : string) : bool :=
  match s with
  | String "*" EmptyString => true
  | String "*" (String "/" rest) => isWildcardRun rest
  | _ => false
  end.

(** [s.replace(/(\*\/)*\*$/g, '[*\\w\\/]+')]. *)
Fixpoint replaceWildcardRun (s : string) : string :=
  if isWildcardRun s then "[*\w\/]+"
  else
    match s with
    | EmptyString => EmptyString
    | String c s' => String c (replaceWildcardRun s')
    end.

(** The [for] loop of [deduplicateInPlace]; the [RegExp] keeps its
    [lastIndex] from one [test] to the next. *)
Fixpoint dedupLoop (fuel : nat) (regexp : RegExp.t) (i : nat)
    (paths : list (list string)) : list (list string) :=
  match fuel with
  | O => paths
  | S fuel' =>
      match paths !! i with
      | None => paths
      | Some path =>
          let '(hit, regexp') := RegExp.test regexp (join "/" path) in
          if hit then dedupLoop fuel' regexp' i (delete i paths)
          else dedupLoop fuel' regexp' (S i) paths
      end
  end.

Definition deduplicateInPlace (element : list string) (index : nat)
    (paths : list (list string)) : outcome (list (list string)) :=
  regexp ← RegExp.create (replaceWildcardRun (join "/" element) +:+ "$");
  Ok (dedupLoop (length paths) regexp (S index) paths).

(** [for (const [index, element] of paths.entries())
      deduplicateInPlace(element, index, paths)], from [index] on. *)
Fixpoint deduplicateFrom (fuel : nat) (index : nat) (paths : list (list string))
  : outcome (list (list string)) :=
  match fuel with
  | O => Ok paths
  | S fuel' =>
      match paths !! index with
      | None => Ok paths
      | Some element =>
          paths' ← deduplicateInPlace element index paths;
          deduplicateFrom fuel' (S index) paths'
      end
  end.

Definition deduplicate (paths : list (list string)) : outcome (list (list string)) :=
  deduplicateFrom (length paths) 0 paths.

(** *** [sort] *)

Definition isStar (s : string) : bool := String.eqb s "*".

(** The [for] loop of [sort], on two arrays of the same length. *)
Fixpoint sortLoop (first second : list string) : Z :=
  match first, second with
  | f :: first', s :: second' =>
      if String.eqb f s then sortLoop first' second'
      else if (isStar f && negb (isStar s))%bool then (-1)%Z
      else if (negb (isStar f) && isStar s)%bool then 1%Z
      else sortLoop first' second'
  | _, _ => 0%Z
  end.

Definition sort (first second : list string) : Z :=
  if Nat.ltb (length first) (length second) then (-1)%Z
  else if Nat.ltb (length second) (length first) then 1%Z
  else sortLoop first second.

(** [Array.prototype.sort] with a comparator: a stable sort. *)
Fixpoint insertBy (cmp : list string → list string → Z) (x : list string)
    (sorted : list (list string)) : list (list string) :=
  match sorted with
  | [] => [x]
  | y :: sorted' =>
      if (0 <? cmp x y)%Z then y :: insertBy cmp x sorted' else x :: sorted
  end.

Definition arraySort (cmp : list string → list string → Z)
    (a : list (list string)) : list (list string) :=
  foldr (insertBy cmp) [] a.

(** *** The default export, imported as [createRoutesFile] *)

(** [RouteData] of Astro, with the fields read here. *)
Module RouteType.
Inductive t : Type := page | endpoint | redirect.
End RouteType.

Record RouteData : Type := mkRoute {
  segments : list (list RoutePart);
  type : RouteType.t;
  prerender : bool;
  pathname : string
}.

Module Page.
Record t : Type := mk { pathname : string }.
End Page.

(** The two arrays and the flag that the function fills. *)
Record Candidates : Type := mkCandidates {
  includePaths : list (list string);
  excludePaths : list (list string);
  hasPrerendered404 : bool
}.

Definition pushInclude (path : list string) (c : Candidates) : Candidates :=
  mkCandidates (includePaths c ++ [path]) (excludePaths c) (hasPrerendered404 c).

Definition pushExclude (path : list string) (c : Candidates) : Candidates :=
  mkCandidates (includePaths c) (excludePaths c ++ [path]) (hasPrerendered404 c).

Definition found404 (c : Candidates) : Candidates :=
  mkCandidates (includePaths c) (excludePaths c) true.

Definition isType (a b : RouteType.t) : bool :=
  match a, b with
  | RouteType.page, RouteType.page
  | RouteType.endpoint, RouteType.endpoint
  | RouteType.redirect, RouteType.redirect => true
  | _, _ => false
  end.

(** The body of [for (const route of routes)]. *)
Definition routeStep (_config : AstroConfig) (c : Candidates) (route : RouteData)
  : Candidates :=
  let convertedPath := segmentsToCfSyntax (segments route) _config in
  let c :=
    if (String.eqb (pathname route) "/404" && prerender route)%bool
    then found404 c else c in
  let c :=
    if isType (type route) RouteType.page then
      if negb (prerender route) then pushInclude convertedPath c else c
    else c in
  let c :=
    if isType (type route) RouteType.endpoint then
      if negb (prerender route) then pushInclude convertedPath c
      else pushExclude convertedPath c
    else c in
  if isType (type route) RouteType.redirect then pushExclude convertedPath c else c.

(** [removeLeadingForwardSlash(p).split(posix.sep).filter(Boolean)
      .map((s) => getParts(s))]. *)
Definition toSegments (p : string) : outcome (list (list RoutePart)) :=
  mapM getParts (filterBoolean (splitOn "/" "" (Assets.removeLeadingForwardSlash p))).

Fixpoint pagesLoop (_config : AstroConfig) (pages : list Page.t) (c : Candidates)
  : outcome Candidates :=
  match pages with
  | [] => Ok c
  | page :: pages' =>
      pageSegments ← toSegments (Page.pathname page);
      pagesLoop _config pages' (pushExclude (segmentsToCfSyntax pageSegments _config) c)
  end.

Definition isReserved (staticFile : string) : bool :=
  (String.eqb staticFile "_headers" || String.eqb staticFile "_redirects"
   || String.eqb staticFile "_routes.json")%bool.

(** [staticFiles] is what [glob] found under the public directory. *)
Fixpoint staticLoop (_config : AstroConfig) (staticFiles : list string) (c : Candidates)
  : outcome Candidates :=
  match staticFiles with
  | [] => Ok c
  | staticFile :: staticFiles' =>
      if isReserved staticFile then staticLoop _config staticFiles' c
      else
        segments ← toSegments staticFile;
        staticLoop _config staticFiles' (pushExclude (segmentsToCfSyntax segments _config) c)
  end.

Definition assetsPath (_config : AstroConfig) : list string :=
  segmentsToCfSyntax
    [ [mkPart (default "_astro" (assetsPrefix _config)) false false];
      [mkPart "" true false] ]
    _config.

(** Lines 93 to 149: the arrays before they are sorted. *)
Definition collect (_config : AstroConfig) (routes : list RouteData)
    (pages : list Page.t) (staticFiles : list string)
    (redirects : list (list (list RoutePart))) : outcome Candidates :=
  let c := foldl (routeStep _config) (mkCandidates [] [] false) routes in
  c ← pagesLoop _config pages c;
  c ← staticLoop _config staticFiles c;
  let c := pushExclude (assetsPath _config) c in
  Ok (foldl (λ c redirect, pushExclude (segmentsToCfSyntax redirect _config) c) c redirects).

(** Lines 151 to 165: both arrays sorted, then deduplicated. *)
Definition prepare (c : Candidates) : outcome Candidates :=
  let includePaths := arraySort sort (includePaths c) in
  let excludePaths := arraySort sort (excludePaths c) in
  includePaths ← deduplicate includePaths;
  excludePaths ← deduplicate excludePaths;
  Ok (mkCandidates includePaths excludePaths (hasPrerendered404 c)).

(** The object handed to [JSON.stringify]. *)
Record Manifest : Type := mkManifest {
  version : Z;
  include : list string;
  exclude : list string
}.

(** Lines 177 to 219: the manifest written, if any. *)
Definition selectManifest (c : Candidates) : option Manifest :=
  if (negb (hasPrerendered404 c)
      || Nat.ltb 100 (length (includePaths c))
      || Nat.ltb (length (excludePaths c)) (length (includePaths c)))%bool
  then Some (mkManifest 1 ["/*"] (take 99 (map (join "/") (excludePaths c))))
  else if Nat.ltb (length (includePaths c)) (length (excludePaths c))
  then Some (mkManifest 1 (map (join "/") (includePaths c)) [])
  else None.

Definition candidates (_config : AstroConfig) (routes : list RouteData)
    (pages : list Page.t) (staticFiles : list string)
    (redirects : list (list (list RoutePart))) : outcome Candidates :=
  c ← collect _config routes pages staticFiles redirects;
  prepare c.

Definition createRoutesFile (_config : AstroConfig) (routes : list RouteData)
    (pages : list Page.t) (staticFiles : list string)
    (redirects : list (list (list RoutePart))) : outcome (option Manifest) :=
  c ← candidates _config routes pages staticFiles redirects;
  Ok (selectManifest c).

End GenerateRoutes.

(** ** [index.ts]: the hook [astro:build:done]

    The part of the hook that feeds [createRoutesFile]: the lines of an
    existing [_redirects] file are parsed into segments, and the routes file
    is generated unless one exists.  The lines of the file and the two
    existence checks are arguments; the renaming of the control files and
    the appending of the generated redirects are left out. *)

Module Integration.
Import Js GenerateRoutes.

(** [.*?(?=\/|$)]: the shortest run of characters other than line
    terminators that ends before a slash or at the end; the result is what
    follows the run. *)
Fixpoint lazyParam (s : string) : option string :=
  match s with
  | EmptyString => Some EmptyString
  | String c s' =>
      if Ascii.eqb c "/" then Some s
      else if isLineTerminator c then None
      else lazyParam s'
  end.

(** [/\/:.*?(?=\/|$)/] tried at the first character of [s]. *)
Definition matchColonParam (s : string) : option string :=
  match s with
  | String "/" (String ":" t) => lazyParam t
  | _ => None
  end.

(** [s.replace(/\/:.*?(?=\/|$)/g, '/*')]. *)
Fixpoint replaceParams (fuel : nat) (s : string) : string :=
  match s with
  | EmptyString => EmptyString
  | String c s' =>
      match fuel with
      | O => s
      | S fuel' =>
          match matchColonParam s with
          | Some rest => "/*" +:+ replaceParams fuel' rest
          | None => String c (replaceParams fuel' s')
          end
      end
  end.

(** [s.replace(/\?.*$/, '')]: cut at the first question mark that no line
    terminator follows. *)
Fixpoint stripQuery (s : string) : string :=
  match s with
  | EmptyString => EmptyString
  | String c s' =>
      if (Ascii.eqb c "?" && all (fun d => negb (isLineTerminator d)) s')%bool
      then EmptyString
      else String c (stripQuery s')
  end.

(** The callback of [.map((s: string) => ...)] on line 209. *)
Definition redirectPart (s : string) : outcome (list RoutePart) :=
  let syntax := stripQuery (replaceParams (String.length s) s) in
  getParts syntax.

(** [removeLeadingForwardSlash(parts[0]).split('/').filter(Boolean).map(...)]. *)
Definition redirectSegments (source : string) : outcome (list (list RoutePart)) :=
  mapM redirectPart
    (filterBoolean (splitOn "/" "" (Assets.removeLeadingForwardSlash source))).

(** [for await (const line of rl)]. *)
Fixpoint readRedirects (lines : list string) (redirects : list (list (list RoutePart)))
  : outcome (list (list (list RoutePart))) :=
  match lines with
  | [] => Ok redirects
  | line :: lines' =>
      match splitOn " " "" line with
      | source :: _ :: _ =>
          p ← redirectSegments source;
          readRedirects lines' (redirects ++ [p])
      | _ => readRedirects lines' redirects
      end
  end.

(** Lines 186 to 233.  [redirectsFile] holds the lines of [_redirects] when
    the file exists, [routesExists] says whether [_routes.json] does.  The
    result is the manifest written here, if any. *)
Definition buildDone (_config : AstroConfig) (routes : list RouteData)
    (pages : list Page.t) (staticFiles : list string)
    (redirectsFile : option (list string)) (routesExists : bool)
  : outcome (option Manifest) :=
  redirects ←
    match redirectsFile with
    | Some lines => readRedirects lines []
    | None => Ok []
    end;
  if routesExists then Ok None
  else createRoutesFile _config routes pages staticFiles redirects.

End Integration.

Import Js GenerateRoutes.

(** ** Definitions used to state the properties *)

Module Spec.

(** Characters that the bracket matcher reads through: not a line
    terminator, not a bracket end, not an opening parenthesis. *)
Definition isPlain (c : ascii) : bool :=
  (negb (isLineTerminator c) && negb (Ascii.eqb c "]") && negb (Ascii.eqb c "("))%bool.

(** The base path as the first token carries it. *)
Definition normalizedBase (_config : AstroConfig) : string :=
  Assets.removeLeadingForwardSlash (Assets.removeTrailingForwardSlash (base _config)).

(** The token of a whole segment in the words of the specification: one
    wildcard when some part is dynamic, the literal text otherwise. *)
Definition segmentTokenSpec (segment : list RoutePart) : string :=
  if existsb dynamic segment then "*" else String.concat "" (map content segment).

(** The compiler in the words of the specification. *)
Definition compileSpec (segments : list (list RoutePart)) (_config : AstroConfig)
  : list string :=
  normalizedBase _config :: map segmentTokenSpec segments.

(** The key that [sort] compares: which tokens are wildcards. *)
Definition mask (path : list string) : list bool := map isStar path.

(** The loop of [sort] on masks. *)
Fixpoint cmpMask (x y : list bool) : Z :=
  match x, y with
  | a :: x', b :: y' =>
      if (a && negb b)%bool then (-1)%Z
      else if (negb a && b)%bool then 1%Z
      else cmpMask x' y'
  | _, _ => 0%Z
  end.

(** The test of line 99. *)
Definition is404 (route : RouteData) : bool :=
  (String.eqb (pathname route) "/404" && prerender route)%bool.

(** The route is the prerendered [/404]. *)
Definition isPrerendered404 (route : RouteData) : Prop :=
  pathname route = "/404" ∧ prerender route = true.

(** The manifest of the exclude mode. *)
Definition excludeMode (c : Candidates) : Manifest :=
  mkManifest 1 ["/*"] (map (join "/") (take 99 (excludePaths c))).

(** The text has no opening bracket. *)
Definition noBracket (s : string) : bool :=
  all (fun c => negb (Ascii.eqb c "[")) s.

(** The parts of a literal piece of a segment: none when it is empty. *)
Definition literalParts (s : string) : list RoutePart :=
  if isEmpty s then [] else [mkPart s false false].

(** The segments of a path: [split('/')] and [filter(Boolean)]. *)
Definition pathSegments (p : string) : list string :=
  filterBoolean (splitOn "/" "" (Assets.removeLeadingForwardSlash p)).

(** A part is well formed: the content is not empty, a literal part is not
    a spread, and a dynamic part is named by the grammar, with three dots
    first exactly when it is a spread. *)
Definition wellFormedPart (p : RoutePart) : Prop :=
  isEmpty (content p) = false ∧
  (dynamic p = false → spread p = false) ∧
  (dynamic p = true →
   ∃ name, isName name = true ∧
     ((content p = name ∧ spread p = false)
      ∨ (content p = "..." +:+ name ∧ spread p = true))).

(** Characters that stand for themselves in a pattern. *)
Definition isLiteralChar (c : ascii) : bool :=
  negb (Ascii.eqb c "*" || Ascii.eqb c "+" || Ascii.eqb c "$" || Ascii.eqb c "."
        || RegExp.isUncovered c)%bool.

(** The terms of a text of such characters. *)
Fixpoint literalTerms (s : string) : list RegExp.term :=
  match s with
  | EmptyString => []
  | String c s' => RegExp.One (RegExp.Chr c) :: literalTerms s'
  end.

(** The route goes to the include list. *)
Definition isServerRoute (route : RouteData) : bool :=
  (negb (prerender route)
   && (isType (type route) RouteType.page || isType (type route) RouteType.endpoint))%bool.

(** The route goes to the exclude list. *)
Definition isStaticRoute (route : RouteData) : bool :=
  (isType (type route) RouteType.endpoint && prerender route
   || isType (type route) RouteType.redirect)%bool.

Definition compileRoute (_config : AstroConfig) (route : RouteData) : list string :=
  segmentsToCfSyntax (segments route) _config.

Definition compileAll (_config : AstroConfig) (l : list (list (list RoutePart)))
  : list (list string) :=
  map (λ segments, segmentsToCfSyntax segments _config) l.

(** [first] does not sort after [second]. *)
Definition notAfter (first second : list string) : Prop := (sort first second <= 0)%Z.

(** The text has no star. *)
Definition noStar (s : string) : bool := all (λ c, negb (Ascii.eqb c "*")) s.

(** The text has no slash. *)
Definition noSlash (s : string) : bool := all (λ c, negb (Ascii.eqb c "/")) s.

(** The text has no question mark. *)
Definition noQuery (s : string) : bool := all (λ c, negb (Ascii.eqb c "?")) s.

(** The text has no line terminator. *)
Definition oneLine (s : string) : bool := all (λ c, negb (isLineTerminator c)) s.

(** Some string of the array is not empty. *)
Definition someText (l : list string) : bool := existsb (λ s, negb (isEmpty s)) l.

(** The static files that are not control files of the platform. *)
Definition publicFiles (staticFiles : list string) : list string :=
  List.filter (λ f, negb (isReserved f)) staticFiles.

(** The paths that [collect] parses: the prerendered pages and the public
    files. *)
Definition parsedPaths (pages : list Page.t) (staticFiles : list string) : list string :=
  map Page.pathname pages ++ publicFiles staticFiles.

(** The source of a redirect line: its first field, when there are at least
    two fields. *)
Definition redirectSource (line : string) : option string :=
  match splitOn " " "" line with
  | source :: _ :: _ => Some source
  | _ => None
  end.

Definition redirectSources (lines : list string) : list string :=
  omap redirectSource lines.

(** The segments of a path read as literal text. *)
Definition literalSegments (p : string) : list (list RoutePart) :=
  map (λ s, [mkPart s false false]) (pathSegments p).

End Spec.

(** ** Inputs used in the examples *)

Module Inputs.

Definition rootConfig : AstroConfig := mkConfig "/" None.
Definition docsConfig : AstroConfig := mkConfig "/docs" None.

(** [src/pages/prefix-[id].astro] *)
Definition mixedSegment : list RoutePart :=
  [mkPart "prefix-" false false; mkPart "id" true false].

Definition page404 : RouteData :=
  mkRoute [[mkPart "404" false false]] RouteType.page true "/404".

Definition endpoint404 : RouteData :=
  mkRoute [[mkPart "404" false false]] RouteType.endpoint true "/404".

Definition post : RouteData :=
  mkRoute [[mkPart "posts" false false]; [mkPart "id" true false]]
    RouteType.page false "/posts/[id]".

(** A prerendered endpoint [/a]. *)
Definition endpointA : RouteData :=
  mkRoute [[mkPart "a" false false]] RouteType.endpoint true "/a".

Definition pathA : list string := [""; "a"].

End Inputs.

Import Spec.

(** * The segment parser *)

Module ParserFacts.

Local Arguments String.append !_ _ : simpl nomatch.

Ltac ascii_cases c := destruct c as [[] [] [] [] [] [] [] []]; try discriminate.

Lemma all_impl (p q : ascii → bool) (s : string) :
  (∀ c, p c = true → q c = true) → all p s = true → all q s = true.
Proof.
  intros Hpq. induction s as [|c s IH]; simpl; [done|].
  rewrite !andb_true_iff. intros [Hc Hs]. split; auto.
Qed.

Lemma isNameChar_plain (c : ascii) : isNameChar c = true → isPlain c = true.
Proof.
  destruct c as [[] [] [] [] [] [] [] []]; vm_compute; congruence.
Qed.

Lemma isNameChar_not_dot (c : ascii) : isNameChar c = true → Ascii.eqb c "." = false.
Proof.
  destruct c as [[] [] [] [] [] [] [] []]; vm_compute; congruence.
Qed.

Lemma isPlain_inv (c : ascii) :
  isPlain c = true →
  isLineTerminator c = false ∧ Ascii.eqb c "]" = false ∧ Ascii.eqb c "(" = false.
Proof.
  unfold isPlain. rewrite !andb_true_iff, !negb_true_iff. tauto.
Qed.

Lemma append_snoc (seen : string) (c : ascii) (s : string) :
  (seen +:+ String c "") +:+ s = seen +:+ String c s.
Proof. induction seen as [|d seen IH]; simpl; [done|]. by rewrite IH. Qed.

Lemma append_empty_r (s : string) : s +:+ "" = s.
Proof. induction s as [|c s IH]; simpl; [done|]. by rewrite IH. Qed.

Lemma noParen_head (d : ascii) (t : string) (A : Type) (x : string → A) (y : A) :
  noParen (String d t) = true →
  match String d t with String "(" r => x r | _ => y end = y.
Proof.
  unfold noParen. simpl. rewrite andb_true_iff, negb_true_iff. intros [Hd _].
  destruct (Ascii.eqb_spec d "("); [discriminate|].
  destruct d as [[] [] [] [] [] [] [] []]; done.
Qed.

(** Without an opening parenthesis the first alternative cannot match. *)
Lemma custom_none {A} (k : string → string → option A) (seen t : string) :
  noParen t = true →
  dotPlusLazy
    (fun name r1 => match r1 with String "(" r2 => k name r2 | _ => None end)
    seen t = None.
Proof.
  revert seen. induction t as [|c t IH]; intros seen Ht; simpl; [done|].
  assert (noParen t = true) as Ht'.
  { unfold noParen in *. simpl in Ht. by apply andb_true_iff in Ht as [_ ?]. }
  destruct (isLineTerminator c); [done|].
  rewrite (IH _ Ht').
  destruct t as [|d t]; [done|].
  by rewrite (noParen_head d t _ (k (seen +:+ String c "")) None Ht').
Qed.

Lemma notClose_head (d : ascii) (t : string) (A : Type) (x : string → A) (y : A) :
  Ascii.eqb d "]" = false →
  match String d t with String "]" r => x r | _ => y end = y.
Proof.
  intros Hd. destruct (Ascii.eqb_spec d "]"); [discriminate|].
  destruct d as [[] [] [] [] [] [] [] []]; done.
Qed.

(** The second alternative reads a run of plain characters up to the
    closing bracket. *)
Lemma plain_some (body seen rest : string) :
  isEmpty body = false → all isPlain body = true →
  dotPlusLazy
    (fun name r => match r with String "]" r' => Some (name, r') | _ => None end)
    seen (body +:+ String "]" rest) = Some (seen +:+ body, rest).
Proof.
  revert seen. induction body as [|c body IH]; intros seen Hne Hall; [done|].
  simpl in Hall. apply andb_true_iff in Hall as [Hc Hall].
  destruct (isPlain_inv c Hc) as (Hlt & _ & _).
  simpl. rewrite Hlt.
  destruct body as [|d body]; [done|].
  rewrite (IH (seen +:+ String c "")); [|done|done].
  rewrite append_snoc.
  simpl in Hall. apply andb_true_iff in Hall as [Hd _].
  destruct (isPlain_inv d Hd) as (_ & Hb & _).
  change (String d body +:+ String "]" rest) with (String d (body +:+ String "]" rest)).
  cbn iota.
  by rewrite (notClose_head d (body +:+ String "]" rest) _
                (λ r', Some (seen +:+ String c "", r')) None Hb).
Qed.

Lemma isPlain_noParen (s : string) : all isPlain s = true → noParen s = true.
Proof.
  apply all_impl. intros c Hc. destruct (isPlain_inv c Hc) as (_ & _ & ->). done.
Qed.

Lemma noParen_app (s t : string) :
  noParen s = true → noParen t = true → noParen (s +:+ t) = true.
Proof.
  unfold noParen. induction s as [|c s IH]; simpl; [done|].
  rewrite !andb_true_iff. intros [? ?] ?. split; auto.
Qed.

(** A bracket around plain text is one match whose group is the text. *)
Lemma matchParam_plain (body rest : string) :
  isEmpty body = false → all isPlain body = true → noParen rest = true →
  matchParam (String "[" (body +:+ String "]" rest)) = Some (body, rest).
Proof.
  intros Hne Hall Hrest. unfold matchParam, matchCustom, matchPlain.
  rewrite custom_none.
  - by rewrite plain_some.
  - apply noParen_app; [by apply isPlain_noParen|]. unfold noParen in *. by simpl.
Qed.

Lemma string_length_app (s t : string) :
  String.length (s +:+ t) = String.length s + String.length t.
Proof. induction s as [|c s IH]; simpl; [done|]. by rewrite IH. Qed.

(** [split] on a segment that is one bracketed parameter. *)
Lemma splitParam_bracket (body : string) :
  isEmpty body = false → all isPlain body = true →
  let part := String "[" (body +:+ "]") in
  splitParam (String.length part) "" part = [""; body; ""].
Proof.
  intros Hne Hall part. unfold part. cbn [String.length splitParam].
  rewrite matchParam_plain by done.
  by destruct (String.length (body +:+ "]")).
Qed.

Lemma execParamName_noParen (body : string) :
  isEmpty body = false → noParen body = true → execParamName body = Some body.
Proof.
  destruct body as [|c body]; [done|]. intros _ H. simpl.
  unfold noParen in H. simpl in H. unfold noParen. by rewrite H.
Qed.

(** What [getParts] does with one bracketed parameter of plain text. *)
Lemma getParts_bracket (body : string) :
  isEmpty body = false → all isPlain body = true →
  getParts (String "[" (body +:+ "]")) =
    if testParamName body
    then Ok [mkPart body true (testSpread body)]
    else Throw paramError.
Proof.
  intros Hne Hall. unfold getParts.
  rewrite (splitParam_bracket body Hne Hall).
  cbn [getPartsFrom isEmpty].
  change (Nat.eqb (1 mod 2) 1) with true. cbn iota.
  rewrite (execParamName_noParen body Hne (isPlain_noParen _ Hall)).
  rewrite Hne. cbn [orb andb app].
  by destruct (testParamName body).
Qed.

(** *** The fuel of [splitParam] is enough *)

Local Open Scope nat_scope.

Lemma dotPlusLazy_shorter (k : string → string → option (string * string))
    (seen s : string) (res : string * string) :
  (∀ name r res', k name r = Some res' → String.length res'.2 ≤ String.length r) →
  dotPlusLazy k seen s = Some res → String.length res.2 < String.length s.
Proof.
  intros Hk. revert seen. induction s as [|c s IH]; intros seen; simpl; [done|].
  destruct (isLineTerminator c); [done|].
  destruct (k (seen +:+ String c "") s) eqn:E.
  - intros [= <-]. apply Hk in E. lia.
  - intros H. apply IH in H. lia.
Qed.

Lemma matchCustom_shorter (t : string) (res : string * string) :
  matchCustom t = Some res → String.length res.2 < String.length t.
Proof.
  unfold matchCustom. apply dotPlusLazy_shorter.
  intros name [|d r2] res'; [done|]. ascii_cases d.
  intros H. apply dotPlusLazy_shorter in H; [simpl; lia|].
  clear. intros pat [|d r3] res'; [done|]. ascii_cases d.
  destruct r3 as [|d r4]; [done|]. ascii_cases d.
  intros [= <-]. simpl. lia.
Qed.

Lemma matchPlain_shorter (t : string) (res : string * string) :
  matchPlain t = Some res → String.length res.2 < String.length t.
Proof.
  unfold matchPlain. apply dotPlusLazy_shorter.
  intros name [|d r] res'; [done|]. ascii_cases d.
  intros [= <-]. simpl. lia.
Qed.

(** A match takes at least the two brackets and one character. *)
Lemma matchParam_shorter (s : string) (res : string * string) :
  matchParam s = Some res → String.length res.2 < String.length s.
Proof.
  destruct s as [|c t]; [done|]. unfold matchParam. ascii_cases c.
  destruct (matchCustom t) as [m|] eqn:E.
  - intros [= <-]. apply matchCustom_shorter in E. simpl. lia.
  - intros H. apply matchPlain_shorter in H. simpl. lia.
Qed.

(** With as much fuel as the text is long, [splitParam] never runs out:
    more fuel gives the same array. *)
Lemma splitParam_fuel (fuel1 fuel2 : nat) (piece s : string) :
  String.length s ≤ fuel1 → String.length s ≤ fuel2 →
  splitParam fuel1 piece s = splitParam fuel2 piece s.
Proof.
  revert fuel2 piece s.
  induction fuel1 as [|fuel1 IH]; intros fuel2 piece [|c s] H1 H2;
    try (simpl in H1; lia); try (by destruct fuel2).
  destruct fuel2 as [|fuel2]; [simpl in H2; lia|].
  cbn [splitParam]. simpl in H1, H2.
  destruct (matchParam (String c s)) as [[cap rest]|] eqn:E.
  - apply matchParam_shorter in E. simpl in E.
    f_equal. f_equal. apply IH; lia.
  - apply IH; lia.
Qed.

End ParserFacts.

Module Parser.
Import ParserFacts.

(** Claim C6, as amended: [getParts] throws for ["[..x]"], whose spread
    marker has two dots, and returns no parts; for ["[1abc]"] it does not
    throw: the name grammar [[\w$]+] admits a leading digit and the result
    is one dynamic part that is not a spread. *)
Theorem malformed_inputs :
  getParts "[..x]" = Throw paramError ∧
  getParts "[1abc]" = Ok [mkPart "1abc" true false].
Proof. split; vm_compute; reflexivity. Qed.

(** Claim C6 as stated fails: ["[1abc]"] raises no error. *)
Lemma leading_digit_accepted :
  ¬ ((∃ e, getParts "[1abc]" = Throw e) ∧ (∃ e, getParts "[..x]" = Throw e)).
Proof. intros [[e He] _]. vm_compute in He. discriminate He. Qed.

(** Claim C8, as amended: for every name of the grammar [[\w$]+], the
    segment ["[...name]"] parses to one part with [spread] and [dynamic]
    true, whose content is the bracket content, the three dots
    included. *)
Theorem spread_parameter (name : string) :
  isName name = true →
  getParts ("[..." +:+ name +:+ "]") = Ok [mkPart ("..." +:+ name) true true].
Proof.
  intros Hname.
  assert (isEmpty name = false ∧ all isNameChar name = true) as [Hne Hall].
  { unfold isName in Hname. apply andb_true_iff in Hname as [? ?].
    by rewrite <- negb_true_iff. }
  change ("[..." +:+ name +:+ "]") with (String "[" (("..." +:+ name) +:+ "]")).
  rewrite getParts_bracket.
  - change ("..." +:+ name) with (String "." (String "." (String "." name))).
    cbn [testParamName testSpread]. rewrite Hname, Hne.
    rewrite (all_impl isNameChar (λ c, negb (isLineTerminator c)) name); [done| |done].
    intros c Hc. by destruct (isPlain_inv c (isNameChar_plain c Hc)) as (-> & _ & _).
  - done.
  - change ("..." +:+ name) with (String "." (String "." (String "." name))).
    cbn [all]. rewrite (all_impl isNameChar isPlain name isNameChar_plain Hall).
    done.
Qed.

Lemma spread_parameter_witness :
  isName "slug" = true ∧
  getParts "[...slug]" = Ok [mkPart "...slug" true true].
Proof.
  split; [reflexivity|]. apply (spread_parameter "slug"). reflexivity.
Defined.

(** Claim C8 as stated fails: the content keeps the three dots. *)
Lemma spread_content_keeps_dots :
  ¬ (∃ sp dy, getParts "[...slug]" = Ok [mkPart "slug" dy sp]).
Proof. intros (sp & dy & H). vm_compute in H. discriminate H. Qed.

End Parser.

Module Compiler.

(** Claim C3, as amended: for every non-empty segment list the compiler
    emits, after the base-path token, one token per part of the flattened
    list, in order: the wildcard for a dynamic part, the content of the
    part otherwise.  A segment of [k] parts gives [k] tokens. *)
Theorem one_token_per_part (segments : list (list RoutePart)) (_config : AstroConfig) :
  segments ≠ [] →
  segmentsToCfSyntax segments _config =
    normalizedBase _config :: map token (concat segments) ∧
  length (segmentsToCfSyntax segments _config) =
    S (sum_list (map length segments)).
Proof.
  intros Hne. destruct segments as [|segment segments]; [done|].
  split; [reflexivity|].
  unfold segmentsToCfSyntax. cbn [app length]. f_equal.
  rewrite length_map. generalize (segment :: segments). clear.
  intros l. induction l as [|x l IH]; [done|].
  cbn [concat map sum_list sum_list_with]. rewrite length_app. by rewrite IH.
Qed.

Lemma one_token_per_part_witness :
  [Inputs.mixedSegment] ≠ [] ∧
  segmentsToCfSyntax [Inputs.mixedSegment] Inputs.rootConfig = [""; "prefix-"; "*"].
Proof.
  split; [discriminate|].
  apply (one_token_per_part [Inputs.mixedSegment] Inputs.rootConfig). discriminate.
Defined.

(** Claim C3 as stated fails: a segment with a literal and a dynamic part
    gives two tokens, the literal and the wildcard. *)
Lemma one_token_per_segment_fails :
  segmentsToCfSyntax [Inputs.mixedSegment] Inputs.rootConfig
    ≠ compileSpec [Inputs.mixedSegment] Inputs.rootConfig.
Proof. vm_compute. discriminate. Qed.

(** Claim C7 fails on the code: for the base ["/docs"] the empty segment
    list compiles to two empty tokens, and the first is not the normalized
    base ["docs"]. *)
Theorem root_ignores_base :
  segmentsToCfSyntax [] Inputs.docsConfig = [""; ""] ∧
  normalizedBase Inputs.docsConfig = "docs" ∧
  segmentsToCfSyntax [[mkPart "a" false false]] Inputs.docsConfig = ["docs"; "a"].
Proof. repeat split. Qed.

(** The root pattern does not depend on the configuration at all. *)
Lemma root_constant (_config : AstroConfig) :
  segmentsToCfSyntax [] _config = [""; ""].
Proof. reflexivity. Qed.

End Compiler.

Module Sorter.

Local Open Scope Z_scope.

Lemma isStar_eqb (f s : string) : String.eqb f s = true → isStar f = isStar s.
Proof. intros H. apply String.eqb_eq in H. by subst. Qed.

(** The loop only looks at which tokens are wildcards. *)
Lemma sortLoop_mask (first second : list string) :
  sortLoop first second = cmpMask (mask first) (mask second).
Proof.
  revert second. induction first as [|f first IH]; intros [|s second]; try done.
  cbn [sortLoop mask map cmpMask]. fold (mask first) (mask second).
  rewrite IH. destruct (String.eqb f s) eqn:E; [|done].
  rewrite (isStar_eqb f s E). by destruct (isStar s).
Qed.

Lemma cmpMask_range (x y : list bool) :
  cmpMask x y = -1 ∨ cmpMask x y = 0 ∨ cmpMask x y = 1.
Proof.
  revert y. induction x as [|a x IH]; intros [|b y]; cbn; auto.
  destruct a, b; cbn; auto.
Qed.

Lemma cmpMask_refl (x : list bool) : cmpMask x x = 0.
Proof. induction x as [|[] x IH]; done. Qed.

Lemma cmpMask_flip (x y : list bool) : cmpMask y x = - cmpMask x y.
Proof.
  revert y. induction x as [|a x IH]; intros [|b y]; try done.
  cbn. destruct a, b; cbn; auto.
Qed.

Lemma cmpMask_trans_lt (x y z : list bool) :
  cmpMask x y < 0 → cmpMask y z < 0 → cmpMask x z < 0.
Proof.
  revert y z. induction x as [|a x IH]; intros [|b y] [|c z]; cbn; try lia.
  destruct a, b, c; cbn; try lia; apply IH.
Qed.

Lemma cmpMask_trans_eq (x y z : list bool) :
  length x = length y → length y = length z →
  cmpMask x y = 0 → cmpMask y z = 0 → cmpMask x z = 0.
Proof.
  revert y z. induction x as [|a x IH]; intros [|b y] [|c z]; cbn; try done.
  intros Hxy Hyz. destruct a, b, c; cbn; try done; apply IH; lia.
Qed.

Lemma sort_cases (a b : list string) :
  (length a < length b)%nat ∧ sort a b = -1 ∨
  (length b < length a)%nat ∧ sort a b = 1 ∨
  length a = length b ∧ sort a b = cmpMask (mask a) (mask b).
Proof.
  unfold sort.
  destruct (Nat.ltb_spec (length a) (length b)); [auto|].
  destruct (Nat.ltb_spec (length b) (length a)); [auto|].
  right. right. split; [lia|]. apply sortLoop_mask.
Qed.

Lemma length_mask (a : list string) : length (mask a) = length a.
Proof. apply length_map. Qed.

(** Claim C9: [sort] is a strict weak ordering.  No sequence sorts before
    itself, the order is asymmetric, sorting strictly before is
    transitive, and so is incomparability (result 0). *)
Theorem sort_strict_weak_order (a b c : list string) :
  sort a a = 0 ∧
  sort b a = - sort a b ∧
  (sort a b < 0 → sort b c < 0 → sort a c < 0) ∧
  (sort a b = 0 → sort b c = 0 → sort a c = 0).
Proof.
  repeat split.
  - destruct (sort_cases a a) as [[? _]|[[? _]|[_ ->]]]; [lia|lia|].
    apply cmpMask_refl.
  - destruct (sort_cases a b) as [[? ->]|[[? ->]|[? ->]]];
      destruct (sort_cases b a) as [[? ->]|[[? ->]|[? ->]]]; try lia.
    apply cmpMask_flip.
  - destruct (sort_cases a b) as [[? ->]|[[? ->]|[? ->]]];
      destruct (sort_cases b c) as [[? ->]|[[? ->]|[? ->]]];
      destruct (sort_cases a c) as [[? ->]|[[? ->]|[? ->]]]; try lia.
    apply cmpMask_trans_lt.
  - destruct (sort_cases a b) as [[? ->]|[[? ->]|[? ->]]];
      destruct (sort_cases b c) as [[? ->]|[[? ->]|[? ->]]];
      destruct (sort_cases a c) as [[? ->]|[[? ->]|[? ->]]]; try lia.
    apply cmpMask_trans_eq; rewrite !length_mask; lia.
Qed.

Lemma sort_strict_weak_order_witness :
  (sort ["x"] [""; "*"] < 0 ∧ sort [""; "*"] [""; "b"] < 0 ∧ sort ["x"] [""; "b"] < 0) ∧
  (sort [""; "a"] [""; "b"] = 0 ∧ sort [""; "b"] [""; "c"] = 0
   ∧ sort [""; "a"] [""; "c"] = 0).
Proof.
  split.
  - split; [reflexivity|]. split; [reflexivity|].
    apply (sort_strict_weak_order ["x"] [""; "*"] [""; "b"]); reflexivity.
  - split; [reflexivity|]. split; [reflexivity|].
    apply (sort_strict_weak_order [""; "a"] [""; "b"] [""; "c"]); reflexivity.
Defined.

(** Where two sequences of one length first differ in being a wildcard,
    the one with the wildcard sorts first. *)
Lemma wildcard_sorts_first (pre rest1 rest2 : list string) (literal : string) :
  isStar literal = false → length rest1 = length rest2 →
  sort (pre ++ "*" :: rest1) (pre ++ literal :: rest2) = -1 ∧
  sort (pre ++ literal :: rest2) (pre ++ "*" :: rest1) = 1.
Proof.
  intros Hlit Hlen.
  assert (∀ l1 l2 : list string, length l1 = length l2 → sort l1 l2 = sortLoop l1 l2) as Hs.
  { intros l1 l2 H. unfold sort. rewrite H, Nat.ltb_irrefl. done. }
  rewrite !Hs by (rewrite !length_app; cbn; lia).
  induction pre as [|p pre IH]; cbn [app sortLoop].
  - change (isStar "*") with true. rewrite Hlit.
    destruct (String.eqb_spec "*" literal) as [<-|_]; [done|].
    destruct (String.eqb_spec literal "*") as [->|_]; done.
  - by rewrite String.eqb_refl.
Qed.

(** Claim C2 fails on the code: of two sequences of length two that first
    differ at index 1, the one with the literal sorts after the one with
    the wildcard, against the comment [wildcard segments should be sorted
    last]. *)
Theorem literal_sorts_after_wildcard :
  sort ["/a"; "b"] ["/a"; "*"] = 1 ∧
  sort ["/a"; "*"] ["/a"; "b"] = -1 ∧
  arraySort sort [["/a"; "b"]; ["/a"; "*"]] = [["/a"; "*"]; ["/a"; "b"]].
Proof. repeat split. Qed.

End Sorter.

Module Dedup.

Local Open Scope nat_scope.

(** *** The fuel of the two loops is enough *)

Lemma dedupLoop_fuel (fuel1 fuel2 : nat) (regexp : RegExp.t) (i : nat)
    (paths : list (list string)) :
  length paths - i ≤ fuel1 → length paths - i ≤ fuel2 →
  dedupLoop fuel1 regexp i paths = dedupLoop fuel2 regexp i paths.
Proof.
  revert fuel2 regexp i paths.
  induction fuel1 as [|fuel1 IH]; intros [|fuel2] regexp i paths H1 H2; cbn [dedupLoop].
  - done.
  - by rewrite (proj2 (lookup_ge_None paths i)) by lia.
  - by rewrite (proj2 (lookup_ge_None paths i)) by lia.
  - destruct (paths !! i) as [path|] eqn:E; [|done].
    pose proof (lookup_lt_Some _ _ _ E) as Hi.
    destruct (RegExp.test regexp (join "/" path)) as [[] regexp'].
    + apply IH; rewrite length_delete by eauto; lia.
    + apply IH; lia.
Qed.

Lemma dedupLoop_length (fuel : nat) (regexp : RegExp.t) (i : nat)
    (paths : list (list string)) :
  length (dedupLoop fuel regexp i paths) ≤ length paths.
Proof.
  revert regexp i paths. induction fuel as [|fuel IH]; intros regexp i paths;
    cbn [dedupLoop]; [done|].
  destruct (paths !! i) as [path|] eqn:E; [|done].
  destruct (RegExp.test regexp (join "/" path)) as [[] regexp'].
  - etrans; [apply IH|]. rewrite length_delete by eauto. lia.
  - apply IH.
Qed.

Lemma deduplicateInPlace_length element index paths paths' :
  deduplicateInPlace element index paths = Ok paths' → length paths' ≤ length paths.
Proof.
  unfold deduplicateInPlace.
  destruct (RegExp.create _) as [regexp| |]; cbn; [|done..].
  intros [= <-]. apply dedupLoop_length.
Qed.

(** With as much fuel as the array is long, the outer loop never runs
    out: more fuel gives the same result. *)
Lemma deduplicateFrom_fuel (fuel1 fuel2 index : nat) (paths : list (list string)) :
  length paths - index ≤ fuel1 → length paths - index ≤ fuel2 →
  deduplicateFrom fuel1 index paths = deduplicateFrom fuel2 index paths.
Proof.
  revert fuel2 index paths.
  induction fuel1 as [|fuel1 IH]; intros [|fuel2] index paths H1 H2;
    cbn [deduplicateFrom].
  - done.
  - by rewrite (proj2 (lookup_ge_None paths index)) by lia.
  - by rewrite (proj2 (lookup_ge_None paths index)) by lia.
  - destruct (paths !! index) as [element|] eqn:E; [|done].
    pose proof (lookup_lt_Some _ _ _ E) as Hi.
    destruct (deduplicateInPlace element index paths) as [paths'| |] eqn:D; cbn; [|done..].
    apply deduplicateInPlace_length in D. apply IH; lia.
Qed.

(** Claim C4 fails on the code: of three identical patterns two are left.
    The first [test] that matches leaves [lastIndex] at the end of the
    text, so the [test] of the next pattern starts there and fails.  The
    written manifest lists ["/a"] twice. *)
Theorem duplicate_survives :
  arraySort sort [Inputs.pathA; Inputs.pathA; Inputs.pathA]
    = [Inputs.pathA; Inputs.pathA; Inputs.pathA] ∧
  deduplicate [Inputs.pathA; Inputs.pathA; Inputs.pathA]
    = Ok [Inputs.pathA; Inputs.pathA] ∧
  createRoutesFile Inputs.rootConfig
      [Inputs.endpointA; Inputs.endpointA; Inputs.endpointA] [] [] []
    = Ok (Some (mkManifest 1 ["/*"] ["/a"; "/a"; "/_astro/*"])).
Proof. repeat split; vm_compute; reflexivity. Qed.

(** Claim C5 fails on the code: on three identical patterns the first
    pass leaves two, and a second pass on that result leaves one. *)
Theorem second_pass_differs :
  deduplicate [Inputs.pathA; Inputs.pathA; Inputs.pathA]
    = Ok [Inputs.pathA; Inputs.pathA] ∧
  deduplicate [Inputs.pathA; Inputs.pathA] = Ok [Inputs.pathA].
Proof. split; vm_compute; reflexivity. Qed.

(** The joined pattern is used as pattern text without escaping: a token
    with a quantifier character does not match itself, and its duplicate
    stays. *)
Lemma unescaped_duplicate_survives :
  deduplicate [[""; "a+b"]; [""; "a+b"]] = Ok [[""; "a+b"]; [""; "a+b"]].
Proof. vm_compute. reflexivity. Qed.

(** The state of the [RegExp] between two calls of [test]. *)
Lemma lastIndex_after_match :
  ∀ re, RegExp.create "/a$" = Ok re →
    RegExp.test re "/a" = (true, RegExp.mk (RegExp.terms re) 2) ∧
    RegExp.test (RegExp.mk (RegExp.terms re) 2) "/a"
      = (false, RegExp.mk (RegExp.terms re) 0).
Proof. intros re [= <-]. split; vm_compute; reflexivity. Qed.

End Dedup.

Module Selector.

Lemma bind_Ok {A B} (m : outcome A) (k : A → outcome B) (b : B) :
  m ≫= k = Ok b → ∃ a, m = Ok a ∧ k a = Ok b.
Proof. destruct m; cbn; [eauto|discriminate..]. Qed.

Lemma routeStep_flag (_config : AstroConfig) (c : Candidates) (route : RouteData) :
  hasPrerendered404 (routeStep _config c route)
    = (hasPrerendered404 c || is404 route)%bool.
Proof.
  unfold routeStep, is404.
  destruct (String.eqb (pathname route) "/404"), (prerender route), (type route);
    cbn; by destruct (hasPrerendered404 c).
Qed.

Lemma routes_flag (_config : AstroConfig) (routes : list RouteData) (c : Candidates) :
  hasPrerendered404 (foldl (routeStep _config) c routes)
    = (hasPrerendered404 c || existsb is404 routes)%bool.
Proof.
  revert c. induction routes as [|route routes IH]; intros c; cbn.
  - by rewrite orb_false_r.
  - by rewrite IH, routeStep_flag, orb_assoc.
Qed.

Lemma pagesLoop_flag (_config : AstroConfig) (pages : list Page.t) (c c' : Candidates) :
  pagesLoop _config pages c = Ok c' → hasPrerendered404 c' = hasPrerendered404 c.
Proof.
  revert c. induction pages as [|p pages IH]; intros c; cbn.
  - by intros [= <-].
  - intros H. apply bind_Ok in H as (segs & _ & H). by rewrite (IH _ H).
Qed.

Lemma staticLoop_flag (_config : AstroConfig) (files : list string) (c c' : Candidates) :
  staticLoop _config files c = Ok c' → hasPrerendered404 c' = hasPrerendered404 c.
Proof.
  revert c. induction files as [|f files IH]; intros c; cbn.
  - by intros [= <-].
  - destruct (isReserved f); [by apply IH|].
    intros H. apply bind_Ok in H as (segs & _ & H). by rewrite (IH _ H).
Qed.

Lemma redirects_flag (_config : AstroConfig) (redirects : list (list (list RoutePart)))
    (c : Candidates) :
  hasPrerendered404
    (foldl (λ c redirect, pushExclude (segmentsToCfSyntax redirect _config) c) c redirects)
    = hasPrerendered404 c.
Proof.
  revert c. induction redirects as [|r redirects IH]; intros c; cbn; [done|].
  by rewrite IH.
Qed.

Lemma collect_flag _config routes pages staticFiles redirects c :
  collect _config routes pages staticFiles redirects = Ok c →
  hasPrerendered404 c = existsb is404 routes.
Proof.
  unfold collect. intros H.
  apply bind_Ok in H as (c1 & H1 & H). apply bind_Ok in H as (c2 & H2 & H).
  injection H as <-.
  rewrite redirects_flag. cbn.
  rewrite (staticLoop_flag _ _ _ _ H2), (pagesLoop_flag _ _ _ _ H1), routes_flag.
  done.
Qed.

Lemma prepare_flag (c c' : Candidates) :
  prepare c = Ok c' → hasPrerendered404 c' = hasPrerendered404 c.
Proof.
  unfold prepare. intros H.
  apply bind_Ok in H as (inc & _ & H). apply bind_Ok in H as (exc & _ & H).
  by injection H as <-.
Qed.

Lemma is404_spec (route : RouteData) : is404 route = true ↔ isPrerendered404 route.
Proof.
  unfold is404, isPrerendered404. rewrite andb_true_iff, String.eqb_eq. done.
Qed.

(** Claim C10: the flag is true exactly when some route of the input has
    the pathname ["/404"] and is prerendered, whatever the type of that
    route; sorting and deduplication hand it unchanged to the selection. *)
Theorem hasPrerendered404_iff _config routes pages staticFiles redirects c :
  collect _config routes pages staticFiles redirects = Ok c →
  (hasPrerendered404 c = true ↔ ∃ route, route ∈ routes ∧ isPrerendered404 route) ∧
  (∀ c', prepare c = Ok c' → hasPrerendered404 c' = hasPrerendered404 c).
Proof.
  intros Hc. split; [|intros c'; apply prepare_flag].
  rewrite (collect_flag _ _ _ _ _ _ Hc), existsb_exists.
  split; intros (route & Hin & H4); exists route;
    (split; [by apply list_elem_of_In | by apply is404_spec]).
Qed.

Lemma hasPrerendered404_iff_witness :
  hasPrerendered404
    (mkCandidates [[""; "posts"; "*"]] [[""; "404"]; [""; "_astro"; "*"]] true) = true
  ↔ ∃ route, route ∈ [Inputs.endpoint404; Inputs.post] ∧ isPrerendered404 route.
Proof.
  apply (hasPrerendered404_iff Inputs.rootConfig [Inputs.endpoint404; Inputs.post] [] [] []).
  vm_compute. reflexivity.
Defined.

(** The flag after the loop over the routes, on every input. *)
Lemma routes_flag_iff (_config : AstroConfig) (routes : list RouteData) :
  hasPrerendered404 (foldl (routeStep _config) (mkCandidates [] [] false) routes) = true
  ↔ ∃ route, route ∈ routes ∧ isPrerendered404 route.
Proof.
  rewrite routes_flag. cbn. rewrite existsb_exists.
  split; intros (route & Hin & H4); exists route;
    (split; [by apply list_elem_of_In | by apply is404_spec]).
Qed.

(** A prerendered endpoint at [/404] is enough for the include mode. *)
Lemma endpoint404_include_mode :
  createRoutesFile Inputs.rootConfig [Inputs.endpoint404; Inputs.post] [] [] []
    = Ok (Some (mkManifest 1 ["/posts/*"] [])).
Proof. vm_compute. reflexivity. Qed.

(** The scenario of the specification: a prerendered [/404] page, one
    dynamic server route and one public file. *)
Lemma scenario_include_mode :
  createRoutesFile Inputs.rootConfig [Inputs.page404; Inputs.post]
      [Page.mk "404/"] ["favicon.ico"] []
    = Ok (Some (mkManifest 1 ["/posts/*"] [])).
Proof. vm_compute. reflexivity. Qed.

(** Lines 177 to 190 on any pair of arrays. *)
Lemma selectManifest_exclude (c : Candidates) :
  hasPrerendered404 c = false
    ∨ 100 < length (includePaths c)
    ∨ length (excludePaths c) < length (includePaths c) →
  selectManifest c = Some (excludeMode c).
Proof.
  intros Hcond. unfold selectManifest, excludeMode. rewrite firstn_map.
  assert ((negb (hasPrerendered404 c)
           || Nat.ltb 100 (length (includePaths c))
           || Nat.ltb (length (excludePaths c)) (length (includePaths c)))%bool = true)
    as ->; [|done].
  rewrite !orb_true_iff, negb_true_iff, !Nat.ltb_lt. tauto.
Qed.

(** Claim C1: when the flag is false, or the deduplicated include list has
    more than 100 entries, or more entries than the deduplicated exclude
    list, the manifest written has [include] equal to ["/*"] and [exclude]
    equal to the first 99 deduplicated exclude patterns, each joined with
    ["/"]. *)
Theorem exclude_mode_manifest _config routes pages staticFiles redirects c :
  candidates _config routes pages staticFiles redirects = Ok c →
  hasPrerendered404 c = false
    ∨ 100 < length (includePaths c)
    ∨ length (excludePaths c) < length (includePaths c) →
  createRoutesFile _config routes pages staticFiles redirects
    = Ok (Some (excludeMode c)).
Proof.
  intros Hc Hcond. unfold createRoutesFile. rewrite Hc. cbn.
  by rewrite (selectManifest_exclude c Hcond).
Qed.

Lemma exclude_mode_manifest_witness :
  createRoutesFile Inputs.rootConfig [Inputs.post] [Page.mk "404/"] ["favicon.ico"] []
    = Ok (Some (mkManifest 1 ["/*"] ["/404"; "/favicon.ico"; "/_astro/*"])).
Proof.
  apply (exclude_mode_manifest Inputs.rootConfig [Inputs.post] [Page.mk "404/"]
           ["favicon.ico"] []
           (mkCandidates [[""; "posts"; "*"]]
              [[""; "404"]; [""; "favicon.ico"]; [""; "_astro"; "*"]] false)).
  - vm_compute. reflexivity.
  - left. reflexivity.
Defined.

End Selector.

(** * Further properties of the segment parser *)

Module ParserMore.
Import ParserFacts.

Local Arguments String.append !_ _ : simpl nomatch.
Local Open Scope nat_scope.

Lemma matchParam_other (c : ascii) (s : string) :
  Ascii.eqb c "[" = false → matchParam (String c s) = None.
Proof.
  intros Hc. destruct (Ascii.eqb_spec c "["); [discriminate|].
  unfold matchParam. destruct c as [[] [] [] [] [] [] [] []]; done.
Qed.

(** Without a bracket there is no match, whatever the fuel. *)
Lemma splitParam_literal (fuel : nat) (piece s : string) :
  noBracket s = true → splitParam fuel piece s = [piece +:+ s].
Proof.
  revert fuel piece. induction s as [|c s IH]; intros fuel piece Hs.
  - destruct fuel; cbn; by rewrite append_empty_r.
  - unfold noBracket in Hs. cbn in Hs. apply andb_true_iff in Hs as [Hc Hs].
    apply negb_true_iff in Hc.
    destruct fuel as [|fuel]; [done|].
    cbn [splitParam]. rewrite (matchParam_other c s Hc), (IH _ _ Hs).
    by rewrite append_snoc.
Qed.

Lemma splitParam_prefix (fuel : nat) (piece pre s : string) :
  noBracket pre = true → String.length (pre +:+ s) ≤ fuel →
  splitParam fuel piece (pre +:+ s)
    = splitParam (fuel - String.length pre) (piece +:+ pre) s.
Proof.
  revert fuel piece. induction pre as [|c pre IH]; intros fuel piece Hpre Hlen.
  - cbn. by rewrite Nat.sub_0_r, append_empty_r.
  - unfold noBracket in Hpre. cbn in Hpre. apply andb_true_iff in Hpre as [Hc Hpre].
    apply negb_true_iff in Hc. cbn in Hlen.
    destruct fuel as [|fuel]; [lia|].
    cbn [String.append]. cbn [splitParam].
    rewrite (matchParam_other c _ Hc), (IH _ _ Hpre) by lia.
    by rewrite append_snoc.
Qed.

Lemma testParamName_head (c : ascii) (s : string) :
  Ascii.eqb c "." = false →
  testParamName (String c s) = isName (String c s) ∧ testSpread (String c s) = false.
Proof.
  intros Hc. destruct (Ascii.eqb_spec c "."); [discriminate|].
  destruct c as [[] [] [] [] [] [] [] []]; done.
Qed.

Lemma isName_inv (name : string) :
  isName name = true → isEmpty name = false ∧ all isNameChar name = true.
Proof.
  unfold isName. rewrite andb_true_iff, negb_true_iff. tauto.
Qed.

Lemma isName_head (name : string) :
  isName name = true → ∃ c s, name = String c s ∧ Ascii.eqb c "." = false.
Proof.
  intros H. destruct (isName_inv _ H) as [Hne Hall].
  destruct name as [|c s]; [done|]. exists c, s. split; [done|].
  cbn in Hall. apply andb_true_iff in Hall as [Hc _].
  by apply isNameChar_not_dot.
Qed.

Lemma isName_plain (name : string) : isName name = true → all isPlain name = true.
Proof.
  intros H. destruct (isName_inv _ H) as [_ Hall].
  by apply (all_impl isNameChar isPlain name isNameChar_plain).
Qed.

(** A valid name is accepted and is not a spread. *)
Lemma name_tests (name : string) :
  isName name = true → testParamName name = true ∧ testSpread name = false.
Proof.
  intros H. destruct (isName_head _ H) as (c & s & -> & Hc).
  destruct (testParamName_head c s Hc) as [-> ->]. done.
Qed.

Lemma getParts_literal_holds (s : string) :
  isEmpty s = false → noBracket s = true →
  getParts s = Ok [mkPart s false false].
Proof.
  intros Hne Hs. unfold getParts. rewrite (splitParam_literal _ _ _ Hs).
  cbn. by rewrite Hne.
Qed.

(** A segment without a bracket is one literal part: static files and
    prerendered pages always parse. *)
Theorem getParts_literal (s : string) :
  isEmpty s = false → noBracket s = true →
  getParts s = Ok [mkPart s false false].
Proof. apply getParts_literal_holds. Qed.

Lemma getParts_literal_witness :
  getParts "favicon.ico" = Ok [mkPart "favicon.ico" false false].
Proof. apply getParts_literal; reflexivity. Defined.

Lemma getPartsFrom_three (pre body post : string) :
  isEmpty body = false → noParen body = true → testParamName body = true →
  getPartsFrom 0 [pre; body; post] []
    = Ok (literalParts pre ++ [mkPart body true (testSpread body)] ++ literalParts post)%list.
Proof.
  intros Hne Hnp Htest. unfold literalParts.
  destruct pre as [|a pre], post as [|b post]; cbn [getPartsFrom isEmpty];
    change (Nat.eqb (1 mod 2) 1) with true; change (Nat.eqb (0 mod 2) 1) with false;
    change (Nat.eqb (2 mod 2) 1) with false; cbn iota;
    rewrite (execParamName_noParen body Hne Hnp), Hne, Htest; reflexivity.
Qed.

(** One parameter with a literal before and after it: the literal pieces
    that are not empty and, between them, one dynamic part named as in the
    brackets. *)
Theorem getParts_one_parameter (pre name post : string) :
  noBracket pre = true → isName name = true →
  noBracket post = true → noParen post = true →
  getParts (pre +:+ String "[" (name +:+ String "]" post))
    = Ok (literalParts pre ++ [mkPart name true false] ++ literalParts post)%list.
Proof.
  intros Hpre Hname Hpost Hnp.
  destruct (isName_inv _ Hname) as [Hne _].
  pose proof (isName_plain _ Hname) as Hplain.
  destruct (name_tests _ Hname) as [Htest Hspread].
  unfold getParts. rewrite splitParam_prefix by done.
  rewrite string_length_app, Nat.add_comm, Nat.add_sub.
  cbn [String.length splitParam String.append].
  rewrite matchParam_plain by done.
  rewrite splitParam_literal by done. cbn [String.append].
  rewrite getPartsFrom_three; [by rewrite Hspread|done|by apply isPlain_noParen|done].
Qed.

Lemma getParts_one_parameter_witness :
  getParts "post-[id].json"
    = Ok [mkPart "post-" false false; mkPart "id" true false; mkPart ".json" false false].
Proof. apply (getParts_one_parameter "post-" "id" ".json"); reflexivity. Defined.

(** A bracket around text without bracket end, parenthesis or line
    terminator is accepted exactly when the text is a name of the grammar or
    three dots and such a name; otherwise [getParts] throws. *)
Theorem getParts_bracket_validation (body : string) :
  isEmpty body = false → all isPlain body = true →
  (testParamName body = true ↔ ∃ parts, getParts (String "[" (body +:+ "]")) = Ok parts) ∧
  (testParamName body = false ↔ getParts (String "[" (body +:+ "]")) = Throw paramError).
Proof.
  intros Hne Hall. rewrite (getParts_bracket body Hne Hall).
  destruct (testParamName body); split; split; try done; eauto.
  intros [parts H]. discriminate H.
Qed.

Lemma getParts_bracket_validation_witness :
  getParts "[my-id]" = Throw paramError.
Proof.
  apply (getParts_bracket_validation "my-id"); reflexivity.
Defined.

(** *** What every result of [getParts] satisfies *)

Lemma testParamName_dots (rest : string) :
  testParamName (String "." (String "." (String "." rest))) = isName rest.
Proof. cbn. by rewrite orb_false_r. Qed.

Lemma testParamName_inv (c : string) :
  testParamName c = true →
  ∃ name, isName name = true ∧
    ((c = name ∧ testSpread c = false) ∨ (c = "..." +:+ name ∧ testSpread c = true)).
Proof.
  assert (∀ s, testParamName s = isName s → testSpread s = false →
            testParamName s = true →
            ∃ name, isName name = true ∧
              ((s = name ∧ testSpread s = false)
               ∨ (s = "..." +:+ name ∧ testSpread s = true))) as Hplain.
  { intros s E1 E2 H. exists s. rewrite <- E1. auto. }
  destruct c as [|c1 s1]; [done|].
  destruct (Ascii.eqb c1 ".") eqn:E1;
    [apply Ascii.eqb_eq in E1 as ->
    |by apply Hplain; apply (testParamName_head c1 s1 E1)].
  destruct s1 as [|c2 s2]; [done|].
  destruct (Ascii.eqb c2 ".") eqn:E2; [apply Ascii.eqb_eq in E2 as ->|].
  2: { apply Hplain;
       (destruct (Ascii.eqb_spec c2 "."); [done|];
        destruct c2 as [[] [] [] [] [] [] [] []]; done). }
  destruct s2 as [|c3 rest]; [done|].
  destruct (Ascii.eqb c3 ".") eqn:E3; [apply Ascii.eqb_eq in E3 as ->|].
  2: { apply Hplain;
       (destruct (Ascii.eqb_spec c3 "."); [done|];
        destruct c3 as [[] [] [] [] [] [] [] []]; done). }
  rewrite testParamName_dots. intros Hname. exists rest. split; [done|]. right.
  split; [done|]. cbn [testSpread].
  destruct (isName_inv _ Hname) as [-> Hall]. cbn.
  apply (all_impl isNameChar (λ c, negb (isLineTerminator c)) rest); [|done].
  intros c Hc. by destruct (isPlain_inv c (isNameChar_plain c Hc)) as (-> & _ & _).
Qed.

Lemma getPartsFrom_wellFormed (i : nat) (strs : list string) (acc parts : list RoutePart) :
  Forall wellFormedPart acc → getPartsFrom i strs acc = Ok parts →
  Forall wellFormedPart parts.
Proof.
  revert i acc. induction strs as [|str strs IH]; intros i acc Hacc; cbn [getPartsFrom].
  - by intros [= <-].
  - destruct (isEmpty str); [by apply IH|].
    destruct (Nat.eqb (i mod 2) 1).
    + destruct (execParamName str) as [c|]; [|done].
      destruct (isEmpty c) eqn:Hne; [done|].
      destruct (testParamName c) eqn:Ht; [|done]. cbn.
      apply IH. apply Forall_app. split; [done|]. apply Forall_singleton.
      split; [done|]. split; [done|]. intros _. cbn.
      destruct (testParamName_inv c Ht) as (name & Hn & [[-> ->]|[-> ->]]); eauto.
    + destruct (isEmpty str) eqn:Hne; [done|]. cbn.
      apply IH. apply Forall_app. split; [done|]. apply Forall_singleton.
      split; [done|]. split; [done|]. done.
Qed.

(** Every part that [getParts] returns has a content that is not empty; a
    literal part is not a spread; a dynamic part is named by the grammar
    [[\w$]+], after three dots exactly when it is a spread. *)
Theorem getParts_wellFormed (part : string) (parts : list RoutePart) :
  getParts part = Ok parts → Forall wellFormedPart parts.
Proof. apply getPartsFrom_wellFormed. constructor. Qed.

Lemma getParts_wellFormed_witness :
  Forall wellFormedPart
    [mkPart "a-" false false; mkPart "...rest" true true].
Proof. apply (getParts_wellFormed "a-[...rest]"). reflexivity. Defined.

(** *** A segment that is not empty has a part *)

Lemma app_not_empty (s : string) (c : ascii) : isEmpty (s +:+ String c "") = false.
Proof. by destruct s. Qed.

Lemma dotPlusLazy_text (k : string → string → option (string * string))
    (seen s : string) (res : string * string) :
  (∀ name r res', isEmpty name = false → k name r = Some res' → isEmpty res'.1 = false) →
  dotPlusLazy k seen s = Some res → isEmpty res.1 = false.
Proof.
  intros Hk. revert seen. induction s as [|c s IH]; intros seen; simpl; [done|].
  destruct (isLineTerminator c); [done|].
  destruct (k (seen +:+ String c "") s) eqn:E.
  - intros [= <-]. by apply (Hk _ _ _ (app_not_empty seen c) E).
  - apply IH.
Qed.

Lemma matchParam_text (s : string) (res : string * string) :
  matchParam s = Some res → isEmpty res.1 = false.
Proof.
  destruct s as [|c t]; [done|]. unfold matchParam. ascii_cases c.
  destruct (matchCustom t) as [m|] eqn:E.
  - intros [= <-]. unfold matchCustom in E. revert E. apply dotPlusLazy_text.
    intros name [|d r2] res' Hn; [done|]. ascii_cases d.
    apply dotPlusLazy_text. clear -Hn.
    intros pat [|d r3] res' _; [done|]. ascii_cases d.
    destruct r3 as [|d r4]; [done|]. ascii_cases d.
    intros [= <-]. by destruct name.
  - unfold matchPlain. apply dotPlusLazy_text.
    intros name [|d r] res' Hn; [done|]. ascii_cases d. by intros [= <-].
Qed.

Lemma splitParam_text (fuel : nat) (piece s : string) :
  isEmpty (piece +:+ s) = false → someText (splitParam fuel piece s) = true.
Proof.
  revert piece s. induction fuel as [|fuel IH]; intros piece [|c s] H.
  - cbn. rewrite append_empty_r in H. by rewrite H.
  - cbn. by rewrite H.
  - cbn. rewrite append_empty_r in H. by rewrite H.
  - cbn [splitParam].
    destruct (matchParam (String c s)) as [[cap rest]|] eqn:E.
    + apply matchParam_text in E. cbn in E. cbn. rewrite E. cbn. by rewrite orb_true_r.
    + apply IH. rewrite append_snoc. done.
Qed.

Lemma getPartsFrom_length (i : nat) (strs : list string) (acc parts : list RoutePart) :
  getPartsFrom i strs acc = Ok parts →
  length acc ≤ length parts ∧ (someText strs = true → length acc < length parts).
Proof.
  revert i acc. induction strs as [|str strs IH]; intros i acc; cbn [getPartsFrom].
  - intros [= <-]. split; [lia|done].
  - destruct (isEmpty str) eqn:Hs.
    + intros H. apply IH in H as [H1 H2]. split; [done|].
      unfold someText in *. cbn. by rewrite Hs.
    + destruct (if Nat.eqb (i mod 2) 1 then execParamName str else Some str) as [c|];
        [|done].
      destruct (isEmpty c || _)%bool; [done|].
      intros H. apply IH in H as [H1 _]. rewrite length_app in H1. cbn in H1.
      split; [lia|]. intros _. lia.
Qed.

(** A segment that is not empty never parses to an empty array of parts:
    either there is a part or [getParts] throws. *)
Theorem getParts_not_empty (part : string) (parts : list RoutePart) :
  isEmpty part = false → getParts part = Ok parts → parts ≠ [].
Proof.
  intros Hne H. apply getPartsFrom_length in H as [_ H].
  assert (0 < length parts) as Hlen.
  { apply H. by apply splitParam_text. }
  destruct parts; [cbn in Hlen; lia|done].
Qed.

Lemma getParts_not_empty_witness :
  [mkPart "id" true false] ≠ [].
Proof. apply (getParts_not_empty "[id]"); reflexivity. Defined.

(** [getParts] throws the one error of the file or returns. *)
Lemma getPartsFrom_outcome (i : nat) (strs : list string) (acc : list RoutePart) :
  (∃ parts, getPartsFrom i strs acc = Ok parts) ∨ getPartsFrom i strs acc = Throw paramError.
Proof.
  revert i acc. induction strs as [|str strs IH]; intros i acc; cbn [getPartsFrom];
    [eauto|].
  destruct (isEmpty str); [apply IH|].
  destruct (if Nat.eqb (i mod 2) 1 then execParamName str else Some str) as [c|]; [|auto].
  destruct (isEmpty c || _)%bool; [auto|apply IH].
Qed.

End ParserMore.


(** * Paths without parameters *)

Module CompilerMore.
Import ParserFacts ParserMore.

Local Arguments String.append !_ _ : simpl nomatch.

Lemma all_app (p : ascii → bool) (s t : string) :
  all p (s +:+ t) = (all p s && all p t)%bool.
Proof. induction s as [|c s IH]; cbn; [done|]. by rewrite IH, andb_assoc. Qed.

Lemma splitOn_all (p : ascii → bool) (sep : ascii) (piece s : string) :
  all p piece = true → all p s = true →
  Forall (λ x, all p x = true) (splitOn sep piece s).
Proof.
  revert piece. induction s as [|c s IH]; intros piece Hp Hs; cbn.
  - by apply Forall_singleton.
  - cbn in Hs. apply andb_true_iff in Hs as [Hc Hs].
    destruct (Ascii.eqb c sep).
    + constructor; [done|]. by apply IH.
    + apply IH; [|done]. rewrite all_app, Hp. cbn. by rewrite Hc.
Qed.

Lemma mapM_Ok {A B} (f : A → outcome B) (g : A → B) (l : list A) :
  Forall (λ x, f x = Ok (g x)) l → mapM f l = Ok (map g l).
Proof.
  induction 1 as [|x l Hx _ IH]; [done|]. cbn. rewrite Hx. cbn. by rewrite IH.
Qed.

Lemma noBracket_leading (p : string) :
  noBracket p = true → noBracket (Assets.removeLeadingForwardSlash p) = true.
Proof.
  destruct p as [|c p]; [done|]. unfold noBracket. cbn.
  rewrite andb_true_iff. intros [Hc Hp].
  destruct c as [[] [] [] [] [] [] [] []]; cbn; by rewrite ?Hp.
Qed.

Lemma pathSegments_literal (p : string) :
  noBracket p = true →
  Forall (λ s, isEmpty s = false ∧ noBracket s = true) (pathSegments p).
Proof.
  intros Hp. unfold pathSegments, filterBoolean.
  apply Forall_forall. intros s Hs. apply list_elem_of_In, filter_In in Hs as [Hin Hne].
  split; [by apply negb_true_iff|].
  pose proof (splitOn_all (λ c, negb (Ascii.eqb c "[")) "/" ""
                (Assets.removeLeadingForwardSlash p) eq_refl (noBracket_leading p Hp)) as H.
  rewrite Forall_forall in H. apply H. by apply list_elem_of_In.
Qed.

(** A path without an opening bracket always parses: each of its segments
    that is not empty becomes one literal part. *)
Lemma toSegments_literal (p : string) :
  noBracket p = true →
  toSegments p = Ok (map (λ s, [mkPart s false false]) (pathSegments p)).
Proof.
  intros Hp. unfold toSegments. apply mapM_Ok.
  eapply Forall_impl; [apply (pathSegments_literal p Hp)|].
  intros s [Hne Hs]. by apply getParts_literal_holds.
Qed.

Lemma tokens_literal (segs : list string) :
  map token (concat (map (λ s, [mkPart s false false]) segs)) = segs.
Proof. induction segs as [|s segs IH]; cbn; [done|]. by rewrite IH. Qed.

(** The pattern of a static file or of a prerendered page whose path has no
    opening bracket: the normalized base and then the segments of the path
    that are not empty; for a path without such a segment, two empty
    tokens.  Nothing is thrown. *)
Theorem literal_path_pattern (_config : AstroConfig) (p : string) :
  noBracket p = true →
  ∃ segments, toSegments p = Ok segments ∧
    segmentsToCfSyntax segments _config =
      match pathSegments p with
      | [] => [""; ""]
      | segs => normalizedBase _config :: segs
      end.
Proof.
  intros Hp. eexists. split; [by apply toSegments_literal|].
  destruct (pathSegments p) as [|s segs] eqn:E; [done|].
  unfold segmentsToCfSyntax, normalizedBase.
  cbn [map concat app token dynamic content]. by rewrite tokens_literal.
Qed.

Lemma literal_path_pattern_witness :
  ∃ segments, toSegments "/img//logo.v2.png" = Ok segments ∧
    segmentsToCfSyntax segments Inputs.docsConfig = ["docs"; "img"; "logo.v2.png"].
Proof. apply (literal_path_pattern Inputs.docsConfig "/img//logo.v2.png"). reflexivity. Defined.

End CompilerMore.


(** * Further properties of the comparator and of the sorted arrays *)

Module SorterMore.
Import Sorter.

Local Open Scope Z_scope.

Lemma cmpMask_zero (x y : list bool) :
  length x = length y → cmpMask x y = 0 ↔ x = y.
Proof.
  revert y. induction x as [|a x IH]; intros [|b y] Hlen; try done.
  cbn in Hlen. cbn [cmpMask].
  destruct a, b; cbn; try (split; [lia|congruence]).
  - rewrite IH by lia. split; congruence.
  - rewrite IH by lia. split; congruence.
Qed.

(** Two sequences tie exactly when they have the same length and wildcards
    at the same indices: literal tokens are never compared with each
    other. *)
Theorem sort_tie (a b : list string) :
  sort a b = 0 ↔ length a = length b ∧ mask a = mask b.
Proof.
  destruct (sort_cases a b) as [[? ->]|[[? ->]|[Hlen ->]]].
  - split; [lia|]. intros [? _]. lia.
  - split; [lia|]. intros [? _]. lia.
  - rewrite cmpMask_zero by (by rewrite !length_mask). tauto.
Qed.

Lemma sort_flip (a b : list string) : sort b a = - sort a b.
Proof.
  destruct (sort_cases a b) as [[? ->]|[[? ->]|[? ->]]];
    destruct (sort_cases b a) as [[? ->]|[[? ->]|[? ->]]]; try lia.
  apply cmpMask_flip.
Qed.

Lemma cmpMask_trans_le (x y z : list bool) :
  length x = length y → length y = length z →
  cmpMask x y <= 0 → cmpMask y z <= 0 → cmpMask x z <= 0.
Proof.
  revert y z. induction x as [|a x IH]; intros [|b y] [|c z]; cbn; try done.
  intros Hxy Hyz. destruct a, b, c; cbn; try lia; apply IH; lia.
Qed.

Lemma notAfter_trans (a b c : list string) :
  notAfter a b → notAfter b c → notAfter a c.
Proof.
  unfold notAfter.
  destruct (sort_cases a b) as [[? ->]|[[? ->]|[? ->]]];
    destruct (sort_cases b c) as [[? ->]|[[? ->]|[? ->]]];
    destruct (sort_cases a c) as [[? ->]|[[? ->]|[? ->]]]; try lia.
  apply cmpMask_trans_le; rewrite !length_mask; lia.
Qed.

Lemma notAfter_length (a b : list string) :
  notAfter a b → (length a ≤ length b)%nat.
Proof.
  unfold notAfter. destruct (sort_cases a b) as [[? ->]|[[? ->]|[? ->]]]; lia.
Qed.

Lemma insertBy_perm (x : list string) (l : list (list string)) :
  insertBy sort x l ≡ₚ x :: l.
Proof.
  induction l as [|y l IH]; cbn; [done|].
  destruct (0 <? sort x y); [|done]. rewrite IH. apply Permutation_swap.
Qed.

Lemma insertBy_sorted (x : list string) (l : list (list string)) :
  StronglySorted notAfter l → StronglySorted notAfter (insertBy sort x l).
Proof.
  induction l as [|y l IH]; cbn; intros Hl.
  - repeat constructor.
  - apply StronglySorted_cons in Hl as [Hy Hl].
    destruct (Z.ltb_spec 0 (sort x y)) as [Hlt|Hle].
    + apply StronglySorted_cons. split; [|by apply IH].
      rewrite insertBy_perm. constructor; [|done].
      unfold notAfter. rewrite sort_flip. lia.
    + apply StronglySorted_cons. split.
      * constructor; [done|].
        eapply Forall_impl; [exact Hy|]. intros z Hz.
        by apply (notAfter_trans x y z).
      * by apply StronglySorted_cons.
Qed.

Lemma arraySort_sorted_holds (a : list (list string)) :
  arraySort sort a ≡ₚ a ∧
  StronglySorted notAfter (arraySort sort a) ∧
  StronglySorted (λ x y, (length x ≤ length y)%nat) (arraySort sort a).
Proof.
  assert (arraySort sort a ≡ₚ a ∧ StronglySorted notAfter (arraySort sort a)) as [Hp Hs].
  { unfold arraySort. induction a as [|x a [IHp IHs]]; cbn.
    - split; [done|constructor].
    - split; [by rewrite insertBy_perm, IHp|by apply insertBy_sorted]. }
  split; [done|]. split; [done|].
  clear Hp. induction Hs as [|x l _ IH Hx]; constructor; [done|].
  eapply Forall_impl; [exact Hx|]. apply notAfter_length.
Qed.

(** The sorted array has the entries of the array, and no entry sorts after
    a later one; so the number of tokens never decreases along it: the
    patterns with fewer tokens come first. *)
Theorem arraySort_sorted (a : list (list string)) :
  arraySort sort a ≡ₚ a ∧
  StronglySorted notAfter (arraySort sort a) ∧
  StronglySorted (λ x y, (length x ≤ length y)%nat) (arraySort sort a).
Proof. apply arraySort_sorted_holds. Qed.

End SorterMore.

(** * Further properties of the deduplication *)

Module DedupMore.
Import ParserFacts CompilerMore.

Local Arguments String.append !_ _ : simpl nomatch.
Local Open Scope nat_scope.

(** *** What the pass keeps *)

Lemma dedupLoop_sublist (fuel : nat) (regexp : RegExp.t) (i : nat)
    (paths : list (list string)) :
  dedupLoop fuel regexp i paths `sublist_of` paths.
Proof.
  revert regexp i paths. induction fuel as [|fuel IH]; intros regexp i paths;
    cbn [dedupLoop]; [done|].
  destruct (paths !! i) as [path|]; [|done].
  destruct (RegExp.test regexp (join "/" path)) as [[] regexp']; [|apply IH].
  etrans; [apply IH|apply sublist_delete].
Qed.

Lemma dedupLoop_before (fuel : nat) (regexp : RegExp.t) (i j : nat)
    (paths : list (list string)) :
  j < i → dedupLoop fuel regexp i paths !! j = paths !! j.
Proof.
  revert regexp i paths. induction fuel as [|fuel IH]; intros regexp i paths Hj;
    cbn [dedupLoop]; [done|].
  destruct (paths !! i) as [path|]; [|done].
  destruct (RegExp.test regexp (join "/" path)) as [[] regexp'].
  - rewrite IH by done. by apply list_lookup_delete_lt.
  - apply IH. lia.
Qed.

Lemma deduplicateFrom_keeps (fuel index : nat) (paths paths' : list (list string)) :
  deduplicateFrom fuel index paths = Ok paths' →
  paths' `sublist_of` paths ∧ ∀ j, j ≤ index → paths' !! j = paths !! j.
Proof.
  revert index paths. induction fuel as [|fuel IH]; intros index paths;
    cbn [deduplicateFrom].
  - by intros [= <-].
  - destruct (paths !! index) as [element|]; [|by intros [= <-]].
    unfold deduplicateInPlace.
    destruct (RegExp.create _) as [regexp| |]; cbn; [|done..].
    intros H. apply IH in H as [Hsub Hkeep]. split.
    + etrans; [exact Hsub|apply dedupLoop_sublist].
    + intros j Hj. rewrite Hkeep by lia. apply dedupLoop_before. lia.
Qed.

Lemma deduplicate_keeps_holds (paths paths' : list (list string)) :
  deduplicate paths = Ok paths' →
  paths' `sublist_of` paths ∧ paths' !! 0 = paths !! 0.
Proof.
  intros H. apply deduplicateFrom_keeps in H as [Hsub Hkeep].
  split; [done|]. by apply Hkeep.
Qed.

(** The pass only removes: the result is a sublist of the array, in the
    same order, and the first pattern is never removed. *)
Theorem deduplicate_keeps (paths paths' : list (list string)) :
  deduplicate paths = Ok paths' →
  paths' `sublist_of` paths ∧ paths' !! 0 = paths !! 0.
Proof. apply deduplicate_keeps_holds. Qed.

Lemma deduplicate_keeps_witness :
  [[""; "*"]; [""; "b"]] `sublist_of` [[""; "*"]; [""; "a"]; [""; "b"]]
  ∧ [[""; "*"]; [""; "b"]] !! 0 = [[""; "*"]; [""; "a"]; [""; "b"]] !! 0.
Proof.
  apply (deduplicate_keeps [[""; "*"]; [""; "a"]; [""; "b"]]). vm_compute. reflexivity.
Defined.

(** *** The pattern of a text of ordinary characters *)

Lemma parse_literal_char (pending : option RegExp.atom) (c : ascii) (rest : string) :
  isLiteralChar c = true →
  RegExp.parse pending (String c rest)
    = (ts ← RegExp.parse (Some (RegExp.Chr c)) rest; Ok (RegExp.flush pending ts)).
Proof.
  intros Hc. destruct c as [[] [] [] [] [] [] [] []];
    try (vm_compute in Hc; discriminate Hc); reflexivity.
Qed.

Lemma parse_literal (pending : option RegExp.atom) (s tail : string)
    (tailTerms : list RegExp.term) :
  all isLiteralChar s = true →
  (∀ p, RegExp.parse p tail = Ok (RegExp.flush p tailTerms)) →
  RegExp.parse pending (s +:+ tail)
    = Ok (RegExp.flush pending (literalTerms s ++ tailTerms)).
Proof.
  intros Hs Htail. revert pending. induction s as [|c s IH]; intros pending.
  - apply Htail.
  - cbn in Hs. apply andb_true_iff in Hs as [Hc Hs].
    cbn [String.append]. rewrite (parse_literal_char _ _ _ Hc), (IH Hs). done.
Qed.

Lemma parse_end (p : option RegExp.atom) :
  RegExp.parse p "$" = Ok (RegExp.flush p [RegExp.EndOfLine]).
Proof. by destruct p. Qed.

Lemma parse_class_end (p : option RegExp.atom) :
  RegExp.parse p "[*\w\/]+$"
    = Ok (RegExp.flush p [RegExp.Plus RegExp.PathClass; RegExp.EndOfLine]).
Proof. by destruct p. Qed.

Lemma isLiteralChar_not_star (c : ascii) :
  isLiteralChar c = true → Ascii.eqb c "*" = false.
Proof.
  unfold isLiteralChar. rewrite negb_true_iff, !orb_false_iff. tauto.
Qed.

Lemma isWildcardRun_head (c : ascii) (s : string) :
  Ascii.eqb c "*" = false → isWildcardRun (String c s) = false.
Proof.
  intros Hc. destruct (Ascii.eqb_spec c "*"); [discriminate|].
  destruct c as [[] [] [] [] [] [] [] []]; done.
Qed.

Lemma literal_noStar (s : string) : all isLiteralChar s = true → noStar s = true.
Proof.
  apply all_impl. intros c Hc. by rewrite (isLiteralChar_not_star c Hc).
Qed.

(** Without a trailing wildcard the pattern text is the joined text. *)
Lemma replaceWildcardRun_noStar (s : string) :
  noStar s = true → replaceWildcardRun s = s.
Proof.
  induction s as [|c s IH]; [done|]. unfold noStar. cbn [all].
  rewrite andb_true_iff, negb_true_iff. intros [Hc Hs].
  cbn [replaceWildcardRun]. rewrite (isWildcardRun_head c s Hc). by rewrite (IH Hs).
Qed.

(** One trailing wildcard after a text without a star becomes the class. *)
Lemma replaceWildcardRun_star (q : string) :
  noStar q = true → replaceWildcardRun (q +:+ "*") = q +:+ "[*\w\/]+".
Proof.
  induction q as [|c q IH]; [done|]. unfold noStar. cbn [all].
  rewrite andb_true_iff, negb_true_iff. intros [Hc Hq].
  cbn [String.append replaceWildcardRun].
  rewrite (isWildcardRun_head c _ Hc). by rewrite (IH Hq).
Qed.

Lemma matchTerms_literal (q w : string) (ts : list RegExp.term) :
  RegExp.matchTerms (literalTerms q ++ ts) (q +:+ w) = RegExp.matchTerms ts w.
Proof.
  induction q as [|c q IH]; [done|]. cbn. by rewrite Ascii.eqb_refl.
Qed.


Lemma search_found (ts : list RegExp.term) (u w r : string) :
  RegExp.matchTerms ts w = Some r → ∃ r', RegExp.search ts (u +:+ w) = Some r'.
Proof.
  intros H. induction u as [|c u IH]; cbn [String.append].
  - exists r. destruct w; cbn; by rewrite H.
  - cbn [RegExp.search].
    destruct (RegExp.matchTerms ts (String c (u +:+ w))) as [r0|].
    + by exists r0.
    + exact IH.
Qed.


Lemma test_hit (re : RegExp.t) (str : string) :
  RegExp.lastIndex re = 0 →
  (∃ rest, RegExp.search (RegExp.terms re) str = Some rest) →
  ∃ re', RegExp.test re str = (true, re').
Proof.
  intros H0 [rest H]. unfold RegExp.test. rewrite H0. cbn. rewrite H. eauto.
Qed.

Lemma create_literal (s : string) :
  all isLiteralChar s = true →
  RegExp.create (replaceWildcardRun s +:+ "$")
    = Ok (RegExp.mk (literalTerms s ++ [RegExp.EndOfLine]) 0).
Proof.
  intros Hs. rewrite (replaceWildcardRun_noStar s (literal_noStar s Hs)).
  unfold RegExp.create. by rewrite (parse_literal None s "$" _ Hs parse_end).
Qed.

(** A pattern of ordinary characters removes the pattern that follows it
    whenever the joined text of that one ends with its own joined text: an
    identical pattern, and also a longer path that only ends the same
    way. *)
Theorem suffix_removed (element other : list string) (u : string) :
  all isLiteralChar (join "/" element) = true →
  join "/" other = u +:+ join "/" element →
  deduplicate [element; other] = Ok [element].
Proof.
  intros Hlit Hsuf. unfold deduplicate. cbn [length deduplicateFrom lookup list_lookup].
  unfold deduplicateInPlace. rewrite (create_literal _ Hlit). cbn [mbind outcome_bind].
  cbn [length dedupLoop lookup list_lookup].
  destruct (test_hit (RegExp.mk (literalTerms (join "/" element) ++ [RegExp.EndOfLine]) 0)
              (join "/" other) eq_refl) as [re' ->]; [|done].
  rewrite Hsuf. apply (search_found _ u _ "").
  pose proof (matchTerms_literal (join "/" element) "" [RegExp.EndOfLine]) as E.
  rewrite append_empty_r in E. exact E.
Qed.

Lemma suffix_removed_witness :
  deduplicate [[""; "c"]; [""; "x"; "c"]] = Ok [[""; "c"]].
Proof. apply (suffix_removed [""; "c"] [""; "x"; "c"] "/x"); reflexivity. Defined.

(** *** A trailing wildcard *)

Lemma string_app_assoc (a b c : string) : (a +:+ b) +:+ c = a +:+ b +:+ c.
Proof. induction a as [|x a IH]; cbn; [done|]. by rewrite IH. Qed.

Lemma join_app (sep : string) (a b : list string) :
  a ≠ [] → b ≠ [] → join sep (a ++ b) = join sep a +:+ sep +:+ join sep b.
Proof.
  intros Ha Hb. induction a as [|x a IH]; [done|].
  destruct a as [|y a].
  - destruct b as [|z b]; [done|]. reflexivity.
  - change (join sep ((x :: y :: a) ++ b))
      with (x +:+ sep +:+ join sep ((y :: a) ++ b)).
    rewrite IH by done.
    change (join sep (x :: y :: a)) with (x +:+ sep +:+ join sep (y :: a)).
    by rewrite !string_app_assoc.
Qed.

Lemma greedy_all (a : RegExp.atom) (k : string → option string) (s r : string) :
  all (RegExp.accepts a) s = true → k "" = Some r →
  RegExp.greedy a k s = Some r.
Proof.
  intros Hs Hk. induction s as [|c s IH]; [done|].
  cbn [all] in Hs. apply andb_true_iff in Hs as [Hc Hs].
  cbn [RegExp.greedy]. by rewrite Hc, (IH Hs).
Qed.

(** A pattern that ends with one wildcard after ordinary tokens removes the
    pattern that follows it when that one continues the same tokens with
    text of letters, digits, underscores, stars and slashes. *)
Theorem wildcard_subsumes (pre toks : list string) :
  pre ≠ [] → toks ≠ [] →
  all isLiteralChar (join "/" pre) = true →
  isEmpty (join "/" toks) = false →
  all (RegExp.accepts RegExp.PathClass) (join "/" toks) = true →
  deduplicate [(pre ++ ["*"])%list; (pre ++ toks)%list] = Ok [(pre ++ ["*"])%list].
Proof.
  intros Hpre Htoks Hlit Hne Hcls.
  set (q := join "/" pre +:+ "/").
  assert (all isLiteralChar q = true) as Hq.
  { unfold q. by rewrite all_app, Hlit. }
  assert (join "/" (pre ++ ["*"]) = q +:+ "*") as Ee.
  { rewrite join_app by done. unfold q. by rewrite string_app_assoc. }
  assert (join "/" (pre ++ toks) = q +:+ join "/" toks) as Eo.
  { rewrite join_app by done. unfold q. by rewrite string_app_assoc. }
  unfold deduplicate. cbn [length deduplicateFrom lookup list_lookup].
  unfold deduplicateInPlace.
  rewrite Ee, (replaceWildcardRun_star q (literal_noStar q Hq)), string_app_assoc.
  change ("[*\w\/]+" +:+ "$") with "[*\w\/]+$".
  unfold RegExp.create. rewrite (parse_literal None q _ _ Hq parse_class_end).
  cbn [mbind outcome_bind RegExp.flush].
  cbn [length dedupLoop lookup list_lookup].
  destruct (test_hit
              (RegExp.mk (literalTerms q ++ [RegExp.Plus RegExp.PathClass; RegExp.EndOfLine]) 0)
              (join "/" (pre ++ toks)) eq_refl) as [re' ->]; [|done].
  rewrite Eo. apply (search_found _ "" _ "").
  cbn [RegExp.terms]. rewrite matchTerms_literal.
  destruct (join "/" toks) as [|c t]; [done|].
  cbn [all] in Hcls. apply andb_true_iff in Hcls as [Hc Ht].
  cbn [RegExp.matchTerms]. rewrite Hc. by apply greedy_all.
Qed.

Lemma wildcard_subsumes_witness :
  deduplicate [[""; "a"; "*"]; [""; "a"; "b"; "c"]] = Ok [[""; "a"; "*"]].
Proof. apply (wildcard_subsumes [""; "a"] ["b"; "c"]); done. Defined.

(** *** A quantifier in a file name *)

Lemma replaceWildcardRun_prefix (a rest : string) :
  noStar a = true →
  replaceWildcardRun (a +:+ String "+" rest) = a +:+ String "+" (replaceWildcardRun rest).
Proof.
  induction a as [|c a IH]; [done|]. unfold noStar. cbn [all].
  rewrite andb_true_iff, negb_true_iff. intros [Hc Ha].
  cbn [String.append replaceWildcardRun].
  rewrite (isWildcardRun_head c _ Hc). by rewrite (IH Ha).
Qed.

Lemma parse_literal_throw (pending : option RegExp.atom) (s tail : string) (e : exn) :
  all isLiteralChar s = true →
  (∀ p, RegExp.parse (Some p) tail = Throw e) → isEmpty s = false →
  RegExp.parse pending (s +:+ tail) = Throw e.
Proof.
  intros Hs Htail. revert pending. induction s as [|c s IH]; intros pending Hne; [done|].
  cbn [all] in Hs. apply andb_true_iff in Hs as [Hc Hs].
  cbn [String.append]. rewrite (parse_literal_char _ _ _ Hc).
  destruct s as [|d s].
  - cbn [String.append]. by rewrite Htail.
  - by rewrite (IH Hs).
Qed.

(** The joined text is used as a pattern without escaping: when the first
    pattern of the array has, after ordinary characters, two plus signs in a
    row (a file named [c++]), [new RegExp] throws a [SyntaxError] and so does
    the pass. *)
Theorem doubled_plus_throws (element : list string) (paths : list (list string))
    (a rest : string) :
  all isLiteralChar a = true → isEmpty a = false →
  join "/" element = a +:+ String "+" (String "+" rest) →
  deduplicate (element :: paths) = Throw SyntaxError.
Proof.
  intros Ha Hne E. unfold deduplicate. cbn [length deduplicateFrom lookup list_lookup].
  unfold deduplicateInPlace.
  rewrite E, (replaceWildcardRun_prefix a _ (literal_noStar a Ha)).
  unfold RegExp.create.
  rewrite (string_app_assoc a), (parse_literal_throw None a _ SyntaxError Ha); [done| |done].
  intros p. reflexivity.
Qed.

Lemma doubled_plus_throws_witness :
  deduplicate [[""; "c++"]; [""; "_astro"; "*"]] = Throw SyntaxError.
Proof. apply (doubled_plus_throws [""; "c++"] _ "/c" ""); reflexivity. Defined.

(** *** After a removal *)


Lemma oneLine_app (a b : string) : oneLine (a +:+ b) = (oneLine a && oneLine b)%bool.
Proof. apply all_app. Qed.





(** *** What a trailing wildcard does not remove *)

Lemma greedy_inv (a : RegExp.atom) (k : string → option string) (s r : string) :
  RegExp.greedy a k s = Some r →
  ∃ t s', s = t +:+ s' ∧ all (RegExp.accepts a) t = true ∧ k s' = Some r.
Proof.
  induction s as [|c s IH]; cbn [RegExp.greedy].
  - intros H. by exists "", "".
  - destruct (RegExp.accepts a c) eqn:Hc; [|intros H; by exists "", (String c s)].
    destruct (RegExp.greedy a k s) as [r0|] eqn:E.
    + intros [= ->]. destruct (IH eq_refl) as (t & s' & -> & Ht & Hk).
      exists (String c t), s'. cbn [all]. by rewrite Hc, Ht.
    + intros H. by exists "", (String c s).
Qed.

(** A match of the pattern of a trailing wildcard: the literal text, then
    a run of the class that is not empty and goes to the end of a line. *)
Lemma matchTerms_class_inv (q s rest : string) :
  RegExp.matchTerms
    (literalTerms q ++ [RegExp.Plus RegExp.PathClass; RegExp.EndOfLine]) s = Some rest →
  ∃ t, s = q +:+ t +:+ rest ∧ isEmpty t = false
    ∧ all (RegExp.accepts RegExp.PathClass) t = true
    ∧ (rest = "" ∨ ∃ c r, rest = String c r ∧ isLineTerminator c = true).
Proof.
  revert s. induction q as [|c q IH]; intros s.
  - cbn [literalTerms app RegExp.matchTerms].
    destruct s as [|d s]; [done|].
    destruct (RegExp.accepts RegExp.PathClass d) eqn:Hd; [|done].
    intros H. apply greedy_inv in H as (t & s' & -> & Ht & Hk).
    exists (String d t). cbn [all]. rewrite Hd, Ht.
    destruct s' as [|e s']; cbn in Hk.
    + injection Hk as <-. split; [done|]. split; [done|]. split; [done|]. by left.
    + destruct (isLineTerminator e) eqn:He; [|done]. injection Hk as <-.
      split; [done|]. split; [done|]. split; [done|]. right. by exists e, s'.
  - cbn. destruct s as [|d s]; [done|].
    destruct (Ascii.eqb_spec d c) as [->|]; [|done].
    intros H. apply IH in H as (t & -> & H). by exists t.
Qed.

Lemma search_none (ts : list RegExp.term) (s : string) :
  (∀ u v, s = u +:+ v → RegExp.matchTerms ts v = None) → RegExp.search ts s = None.
Proof.
  induction s as [|c s IH]; intros H; cbn [RegExp.search].
  - by rewrite (H "" "" eq_refl).
  - rewrite (H "" (String c s) eq_refl). apply IH.
    intros u v ->. by apply (H (String c u) v).
Qed.

(** What follows a slash in a text that ends with a part free of slashes
    ends with that part too. *)
Lemma after_slash (a t w y : string) :
  a +:+ String "/" t = w +:+ y → noSlash y = true → ∃ t', t = t' +:+ y.
Proof.
  revert w. induction a as [|c a IH]; intros w E Hy.
  - destruct w as [|d w]; cbn in E.
    + subst y. done.
    + injection E as _ ->. by exists w.
  - destruct w as [|d w]; cbn in E.
    + subst y. unfold noSlash in Hy. cbn in Hy. apply andb_true_iff in Hy as [_ Hy].
      rewrite all_app in Hy. apply andb_true_iff in Hy as [_ Hy]. done.
    + injection E as _ E. by apply (IH w).
Qed.

(** A pattern that ends with a wildcard leaves the next pattern in place
    when, after the last slash of its joined text, that one has a character
    outside letters, digits, underscore and star: the dot of a file name,
    a hyphen. *)
Theorem wildcard_keeps_other_characters (pre other : list string)
    (w z : string) (d : ascii) :
  pre ≠ [] →
  all isLiteralChar (join "/" pre) = true →
  join "/" other = w +:+ String d z →
  RegExp.accepts RegExp.PathClass d = false →
  noSlash z = true → oneLine (join "/" other) = true →
  deduplicateInPlace (pre ++ ["*"]) 0 [(pre ++ ["*"])%list; other]
    = Ok [(pre ++ ["*"])%list; other].
Proof.
  intros Hpre Hlit Eo Hd Hz Hline.
  set (q := join "/" pre +:+ "/").
  assert (all isLiteralChar q = true) as Hq.
  { unfold q. by rewrite all_app, Hlit. }
  assert (join "/" (pre ++ ["*"]) = q +:+ "*") as Ee.
  { rewrite join_app by done. unfold q. by rewrite string_app_assoc. }
  assert (noSlash (String d z) = true) as Hdz.
  { unfold noSlash in *. cbn [all]. rewrite Hz, andb_true_r.
    destruct (Ascii.eqb_spec d "/") as [->|]; done. }
  unfold deduplicateInPlace.
  rewrite Ee, (replaceWildcardRun_star q (literal_noStar q Hq)), string_app_assoc.
  change ("[*\w\/]+" +:+ "$") with "[*\w\/]+$".
  unfold RegExp.create. rewrite (parse_literal None q _ _ Hq parse_class_end).
  cbn [mbind outcome_bind RegExp.flush].
  cbn [length dedupLoop lookup list_lookup].
  unfold RegExp.test. cbn [RegExp.lastIndex RegExp.terms RegExp.skip].
  change (Nat.ltb _ 0) with false. cbn iota.
  rewrite search_none; [done|].
  intros u v Ev.
  destruct (RegExp.matchTerms _ v) as [rest|] eqn:Em; [exfalso|done].
  apply matchTerms_class_inv in Em as (t & -> & Hne & Hcls & Hrest).
  assert (rest = "") as ->.
  { destruct Hrest as [->|(c & r & -> & Hc)]; [done|].
    rewrite Ev in Hline. rewrite !oneLine_app in Hline.
    do 3 (apply andb_true_iff in Hline as [_ Hline]).
    unfold oneLine in Hline. cbn in Hline. by rewrite Hc in Hline. }
  rewrite append_empty_r in Ev. rewrite Eo in Ev. unfold q in Ev.
  rewrite string_app_assoc, <- string_app_assoc in Ev.
  symmetry in Ev. apply after_slash in Ev as [t' ->]; [|done].
  rewrite all_app in Hcls. apply andb_true_iff in Hcls as [_ Hcls].
  cbn [all] in Hcls. by rewrite Hd in Hcls.
Qed.

Lemma wildcard_keeps_other_characters_witness :
  deduplicateInPlace [""; "*"] 0 [[""; "*"]; [""; "favicon.ico"]]
    = Ok [[""; "*"]; [""; "favicon.ico"]].
Proof.
  apply (wildcard_keeps_other_characters [""] [""; "favicon.ico"] "/favicon" "ico" ".");
    done.
Defined.

End DedupMore.

(** * Further properties of the classification and of the selection *)

Module SelectorMore.
Import Selector.

Local Open Scope nat_scope.

(** *** The two arrays before sorting *)

Lemma routeStep_spec (_config : AstroConfig) (c : Candidates) (route : RouteData) :
  routeStep _config c route =
    mkCandidates
      (includePaths c ++ map (compileRoute _config) (List.filter isServerRoute [route]))
      (excludePaths c ++ map (compileRoute _config) (List.filter isStaticRoute [route]))
      (hasPrerendered404 c || is404 route).
Proof.
  destruct c as [inc exc flag], route as [segs ty pre path].
  unfold routeStep, is404, isServerRoute, isStaticRoute. cbn.
  destruct (String.eqb path "/404"), pre, ty, flag; cbn; by rewrite ?app_nil_r.
Qed.

Lemma routes_spec (_config : AstroConfig) (routes : list RouteData) (c : Candidates) :
  foldl (routeStep _config) c routes =
    mkCandidates
      (includePaths c ++ map (compileRoute _config) (List.filter isServerRoute routes))
      (excludePaths c ++ map (compileRoute _config) (List.filter isStaticRoute routes))
      (hasPrerendered404 c || existsb is404 routes).
Proof.
  revert c. induction routes as [|route routes IH]; intros c.
  - destruct c. cbn. by rewrite !app_nil_r, orb_false_r.
  - cbn [foldl]. rewrite IH, routeStep_spec. cbn [includePaths excludePaths hasPrerendered404].
    cbn [List.filter existsb].
    destruct (isServerRoute route), (isStaticRoute route);
      cbn [map app]; rewrite ?app_nil_r, <- ?app_assoc, orb_assoc; reflexivity.
Qed.

Lemma pagesLoop_spec (_config : AstroConfig) (pages : list Page.t) (c : Candidates) :
  pagesLoop _config pages c =
    (pageSegments ← mapM toSegments (map Page.pathname pages);
     Ok (mkCandidates (includePaths c)
           (excludePaths c ++ compileAll _config pageSegments) (hasPrerendered404 c))).
Proof.
  revert c. induction pages as [|p pages IH]; intros c.
  - destruct c. cbn. by rewrite app_nil_r.
  - cbn [pagesLoop map mapM]. destruct (toSegments (Page.pathname p)) as [segs| |]; cbn; [|done..].
    rewrite IH. destruct (mapM toSegments _) as [rest| |]; cbn; [|done..].
    by rewrite <- app_assoc.
Qed.

Lemma staticLoop_spec (_config : AstroConfig) (staticFiles : list string) (c : Candidates) :
  staticLoop _config staticFiles c =
    (fileSegments ← mapM toSegments (publicFiles staticFiles);
     Ok (mkCandidates (includePaths c)
           (excludePaths c ++ compileAll _config fileSegments) (hasPrerendered404 c))).
Proof.
  revert c. induction staticFiles as [|f files IH]; intros c.
  - destruct c. cbn. by rewrite app_nil_r.
  - cbn [staticLoop publicFiles List.filter]. destruct (isReserved f); cbn [negb].
    + apply IH.
    + cbn [mapM]. destruct (toSegments f) as [segs| |]; cbn; [|done..].
      rewrite IH. unfold publicFiles.
      destruct (mapM toSegments _) as [rest| |]; cbn; [|done..].
      by rewrite <- app_assoc.
Qed.

Lemma redirects_spec (_config : AstroConfig) (redirects : list (list (list RoutePart)))
    (c : Candidates) :
  foldl (λ c redirect, pushExclude (segmentsToCfSyntax redirect _config) c) c redirects
    = mkCandidates (includePaths c)
        (excludePaths c ++ compileAll _config redirects) (hasPrerendered404 c).
Proof.
  revert c. induction redirects as [|r redirects IH]; intros c.
  - destruct c. cbn. by rewrite app_nil_r.
  - cbn [foldl]. rewrite IH. cbn. by rewrite <- app_assoc.
Qed.

Lemma collect_spec_holds (_config : AstroConfig) (routes : list RouteData)
    (pages : list Page.t) (staticFiles : list string)
    (redirects : list (list (list RoutePart))) :
  collect _config routes pages staticFiles redirects =
    (pageSegments ← mapM toSegments (map Page.pathname pages);
     fileSegments ← mapM toSegments (publicFiles staticFiles);
     Ok (mkCandidates
           (map (compileRoute _config) (List.filter isServerRoute routes))
           (map (compileRoute _config) (List.filter isStaticRoute routes)
              ++ compileAll _config pageSegments
              ++ compileAll _config fileSegments
              ++ [assetsPath _config]
              ++ compileAll _config redirects)
           (existsb is404 routes))).
Proof.
  unfold collect. rewrite routes_spec, pagesLoop_spec.
  cbn [includePaths excludePaths hasPrerendered404 app orb].
  destruct (mapM toSegments (map Page.pathname pages)) as [pageSegments| |]; cbn; [|done..].
  rewrite staticLoop_spec. cbn [includePaths excludePaths hasPrerendered404].
  destruct (mapM toSegments (publicFiles staticFiles)) as [fileSegments| |]; cbn; [|done..].
  rewrite redirects_spec. cbn. by rewrite <- !app_assoc.
Qed.

(** The loops of lines 93 to 149 as one expression.  The include list is
    the patterns of the routes that are not prerendered and are pages or
    endpoints, in order.  The exclude list is, in order: the prerendered
    endpoints and the redirect routes, the prerendered pages, the public
    files other than [_headers], [_redirects] and [_routes.json], the
    assets directory with a wildcard, and the parsed redirects.  The first
    malformed page path or file path ends the run. *)
Theorem collect_spec (_config : AstroConfig) (routes : list RouteData)
    (pages : list Page.t) (staticFiles : list string)
    (redirects : list (list (list RoutePart))) :
  collect _config routes pages staticFiles redirects =
    (pageSegments ← mapM toSegments (map Page.pathname pages);
     fileSegments ← mapM toSegments (publicFiles staticFiles);
     Ok (mkCandidates
           (map (compileRoute _config) (List.filter isServerRoute routes))
           (map (compileRoute _config) (List.filter isStaticRoute routes)
              ++ compileAll _config pageSegments
              ++ compileAll _config fileSegments
              ++ [assetsPath _config]
              ++ compileAll _config redirects)
           (existsb is404 routes))).
Proof. apply collect_spec_holds. Qed.

(** *** Where the deduplicated arrays come from *)

Lemma prepare_inv (c c' : Candidates) :
  prepare c = Ok c' →
  deduplicate (arraySort sort (includePaths c)) = Ok (includePaths c') ∧
  deduplicate (arraySort sort (excludePaths c)) = Ok (excludePaths c') ∧
  hasPrerendered404 c' = hasPrerendered404 c.
Proof.
  unfold prepare. intros H.
  apply bind_Ok in H as (inc & Hi & H). apply bind_Ok in H as (exc & He & H).
  by injection H as <-.
Qed.

Lemma prepared_elem (l l' : list (list string)) (p : list string) :
  deduplicate (arraySort sort l) = Ok l' → p ∈ l' → p ∈ l.
Proof.
  intros H Hp. apply DedupMore.deduplicate_keeps_holds in H as [Hsub _].
  destruct (SorterMore.arraySort_sorted_holds l) as [Hperm _].
  rewrite <- Hperm. by eapply elem_of_sublist.
Qed.

Lemma prepared_not_empty (l l' : list (list string)) :
  deduplicate (arraySort sort l) = Ok l' → l ≠ [] → l' ≠ [].
Proof.
  intros H Hl. apply DedupMore.deduplicate_keeps_holds in H as [_ H0].
  destruct (SorterMore.arraySort_sorted_holds l) as [Hperm _].
  destruct (arraySort sort l) as [|x sorted].
  - apply Permutation_nil_l in Hperm. by subst l.
  - intros ->. done.
Qed.

Lemma candidates_sources_holds _config routes pages staticFiles redirects c :
  candidates _config routes pages staticFiles redirects = Ok c →
  excludePaths c ≠ [] ∧
  (∀ p, p ∈ includePaths c →
     ∃ route, route ∈ routes ∧ isServerRoute route = true ∧ p = compileRoute _config route) ∧
  hasPrerendered404 c = existsb is404 routes.
Proof.
  unfold candidates. intros H. apply bind_Ok in H as (c0 & Hc & Hp).
  rewrite collect_spec_holds in Hc.
  apply bind_Ok in Hc as (pageSegments & _ & Hc).
  apply bind_Ok in Hc as (fileSegments & _ & Hc). injection Hc as <-.
  apply prepare_inv in Hp as (Hi & He & Hf). cbn in Hi, He, Hf.
  split; [|split; [|done]].
  - apply (prepared_not_empty _ _ He).
    intros E. apply (f_equal length) in E. rewrite !length_app in E. cbn in E. lia.
  - intros p Hin. apply (prepared_elem _ _ _ Hi) in Hin.
    apply list_elem_of_In, in_map_iff in Hin as (route & <- & Hin).
    apply filter_In in Hin as [Hin Hs].
    exists route. by rewrite list_elem_of_In.
Qed.

(** After sorting and deduplication the exclude list is never empty, every
    include pattern is the pattern of a route that is not prerendered and is
    a page or an endpoint, and the flag is the one of the routes. *)
Theorem candidates_sources _config routes pages staticFiles redirects c :
  candidates _config routes pages staticFiles redirects = Ok c →
  excludePaths c ≠ [] ∧
  (∀ p, p ∈ includePaths c →
     ∃ route, route ∈ routes ∧ isServerRoute route = true ∧ p = compileRoute _config route) ∧
  hasPrerendered404 c = existsb is404 routes.
Proof. apply candidates_sources_holds. Qed.

Lemma candidates_sources_witness :
  [[""; "404"]; [""; "_astro"; "*"]] ≠ [] ∧
  (∀ p, p ∈ [[""; "posts"; "*"]] →
     ∃ route, route ∈ [Inputs.endpoint404; Inputs.post] ∧ isServerRoute route = true
       ∧ p = compileRoute Inputs.rootConfig route) ∧
  true = existsb is404 [Inputs.endpoint404; Inputs.post].
Proof.
  apply (candidates_sources Inputs.rootConfig [Inputs.endpoint404; Inputs.post] [] [] []
           (mkCandidates [[""; "posts"; "*"]] [[""; "404"]; [""; "_astro"; "*"]] true)).
  vm_compute. reflexivity.
Defined.

(** *** The manifest *)

Lemma createRoutesFile_inv _config routes pages staticFiles redirects m :
  createRoutesFile _config routes pages staticFiles redirects = Ok m →
  ∃ c, candidates _config routes pages staticFiles redirects = Ok c ∧ selectManifest c = m.
Proof.
  unfold createRoutesFile. intros H. apply bind_Ok in H as (c & Hc & H).
  injection H as <-. by exists c.
Qed.

(** A manifest that is written has version 1 and at most 100 rules in all:
    either the one include rule and at most 99 exclude rules, or at most
    100 include rules and no exclude rule. *)
Theorem manifest_within_limit _config routes pages staticFiles redirects m :
  createRoutesFile _config routes pages staticFiles redirects = Ok (Some m) →
  version m = 1%Z ∧
  length (include m) + length (exclude m) ≤ 100 ∧
  (include m = ["/*"] ∨ exclude m = []).
Proof.
  intros H. apply createRoutesFile_inv in H as (c & _ & H).
  unfold selectManifest in H.
  destruct (negb (hasPrerendered404 c) || _ || _)%bool eqn:E.
  - injection H as <-. cbn. split; [done|]. split; [|by left].
    rewrite length_take. lia.
  - destruct (Nat.ltb_spec (length (includePaths c)) (length (excludePaths c))); [|done].
    injection H as <-. cbn. split; [done|]. split; [|by right].
    rewrite length_map. rewrite !orb_false_iff in E. destruct E as [[_ E] _].
    apply Nat.ltb_ge in E. lia.
Qed.

Lemma manifest_within_limit_witness :
  version (mkManifest 1 ["/posts/*"] []) = 1%Z ∧
  length (include (mkManifest 1 ["/posts/*"] []))
    + length (exclude (mkManifest 1 ["/posts/*"] [])) ≤ 100 ∧
  (include (mkManifest 1 ["/posts/*"] []) = ["/*"]
   ∨ exclude (mkManifest 1 ["/posts/*"] []) = []).
Proof.
  apply (manifest_within_limit Inputs.rootConfig [Inputs.endpoint404; Inputs.post] [] [] []).
  vm_compute. reflexivity.
Defined.

(** The include mode: with a prerendered [/404], at most 100 include
    patterns and fewer of them than exclude patterns, the manifest lists
    the include patterns, joined, and excludes nothing. *)
Theorem include_mode_manifest _config routes pages staticFiles redirects c :
  candidates _config routes pages staticFiles redirects = Ok c →
  hasPrerendered404 c = true →
  length (includePaths c) ≤ 100 →
  length (includePaths c) < length (excludePaths c) →
  createRoutesFile _config routes pages staticFiles redirects
    = Ok (Some (mkManifest 1 (map (join "/") (includePaths c)) [])).
Proof.
  intros Hc Hf H100 Hlt. unfold createRoutesFile. rewrite Hc. cbn.
  unfold selectManifest. rewrite Hf. cbn [negb orb].
  rewrite (proj2 (Nat.ltb_ge _ _)) by lia.
  rewrite (proj2 (Nat.ltb_ge _ _)) by lia.
  by rewrite (proj2 (Nat.ltb_lt _ _)) by lia.
Qed.

Lemma include_mode_manifest_witness :
  createRoutesFile Inputs.rootConfig [Inputs.page404; Inputs.post]
      [Page.mk "404/"] ["favicon.ico"] []
    = Ok (Some (mkManifest 1 ["/posts/*"] [])).
Proof.
  apply (include_mode_manifest Inputs.rootConfig [Inputs.page404; Inputs.post]
           [Page.mk "404/"] ["favicon.ico"] []
           (mkCandidates [[""; "posts"; "*"]]
              [[""; "404"]; [""; "favicon.ico"]; [""; "_astro"; "*"]] true)).
  - vm_compute. reflexivity.
  - reflexivity.
  - cbn. lia.
  - cbn. lia.
Defined.

(** Nothing is written, and nothing is thrown, exactly when there is a
    prerendered [/404] and the two deduplicated lists have the same length,
    at most 100. *)
Theorem no_manifest_iff _config routes pages staticFiles redirects :
  createRoutesFile _config routes pages staticFiles redirects = Ok None ↔
  ∃ c, candidates _config routes pages staticFiles redirects = Ok c ∧
    hasPrerendered404 c = true ∧
    length (includePaths c) = length (excludePaths c) ∧
    length (includePaths c) ≤ 100.
Proof.
  split.
  - intros H. apply createRoutesFile_inv in H as (c & Hc & H). exists c.
    split; [done|]. unfold selectManifest in H.
    destruct (negb (hasPrerendered404 c) || _ || _)%bool eqn:E; [done|].
    destruct (Nat.ltb_spec (length (includePaths c)) (length (excludePaths c))); [done|].
    rewrite !orb_false_iff, negb_false_iff, !Nat.ltb_ge in E.
    destruct E as [[Ef E1] E2]. split; [done|]. lia.
  - intros (c & Hc & Hf & Hlen & H100). unfold createRoutesFile. rewrite Hc. cbn.
    unfold selectManifest. rewrite Hf. cbn [negb orb].
    rewrite (proj2 (Nat.ltb_ge _ _)) by lia.
    rewrite (proj2 (Nat.ltb_ge _ _)) by lia.
    by rewrite (proj2 (Nat.ltb_ge _ _)) by lia.
Qed.

(** Without a prerendered [/404] among the routes, every run that ends
    writes the exclude mode: the server stays the default handler. *)
Theorem no_404_exclude_mode _config routes pages staticFiles redirects m :
  (∀ route, route ∈ routes → ¬ isPrerendered404 route) →
  createRoutesFile _config routes pages staticFiles redirects = Ok m →
  ∃ c, candidates _config routes pages staticFiles redirects = Ok c
    ∧ m = Some (excludeMode c).
Proof.
  intros Hno H. apply createRoutesFile_inv in H as (c & Hc & <-).
  exists c. split; [done|]. apply selectManifest_exclude. left.
  destruct (candidates_sources_holds _ _ _ _ _ _ Hc) as (_ & _ & ->).
  apply not_true_is_false. rewrite existsb_exists.
  intros (route & Hin & H4). apply (Hno route); [by apply list_elem_of_In|].
  by apply is404_spec.
Qed.

Lemma no_404_exclude_mode_witness :
  ∃ c, candidates Inputs.rootConfig [Inputs.post] [] ["favicon.ico"] [] = Ok c
    ∧ Some (mkManifest 1 ["/*"] ["/favicon.ico"; "/_astro/*"]) = Some (excludeMode c).
Proof.
  apply (no_404_exclude_mode Inputs.rootConfig [Inputs.post] [] ["favicon.ico"] []).
  - intros route Hin [H _]. apply list_elem_of_singleton in Hin as ->. discriminate H.
  - vm_compute. reflexivity.
Defined.

(** A site whose routes are all served statically and that has a
    prerendered [/404] gets a manifest with no include rule and no exclude
    rule. *)
Theorem static_site_empty_manifest _config routes pages staticFiles redirects m :
  (∀ route, route ∈ routes → isServerRoute route = false) →
  (∃ route, route ∈ routes ∧ isPrerendered404 route) →
  createRoutesFile _config routes pages staticFiles redirects = Ok m →
  m = Some (mkManifest 1 [] []).
Proof.
  intros Hstatic (r4 & Hin4 & H4) H.
  apply createRoutesFile_inv in H as (c & Hc & <-).
  destruct (candidates_sources_holds _ _ _ _ _ _ Hc) as (Hexc & Hinc & Hf).
  assert (includePaths c = []) as Ei.
  { destruct (includePaths c) as [|p inc]; [done|].
    destruct (Hinc p) as (route & Hin & Hs & _); [by left|].
    by rewrite (Hstatic route Hin) in Hs. }
  assert (hasPrerendered404 c = true) as Ef.
  { rewrite Hf. apply existsb_exists. exists r4.
    split; [by apply list_elem_of_In|by apply is404_spec]. }
  unfold selectManifest. rewrite Ei, Ef. cbn.
  destruct (excludePaths c); done.
Qed.

Lemma static_site_empty_manifest_witness :
  Some (mkManifest 1 [] []) = Some (mkManifest 1 [] []).
Proof.
  apply (static_site_empty_manifest Inputs.rootConfig [Inputs.page404]
           [Page.mk "404/"] [] []).
  - intros route Hin. apply list_elem_of_singleton in Hin as ->. reflexivity.
  - exists Inputs.page404. split; [by left|]. split; reflexivity.
  - vm_compute. reflexivity.
Defined.

(** *** Malformed paths *)

Lemma mapM_outcome {A B} (f : A → outcome B) (e : exn) (l : list A) :
  (∀ x, (∃ y, f x = Ok y) ∨ f x = Throw e) →
  ((∃ ys, mapM f l = Ok ys) ∧ ∀ x, x ∈ l → ∃ y, f x = Ok y)
  ∨ (mapM f l = Throw e ∧ ∃ x, x ∈ l ∧ f x = Throw e).
Proof.
  intros Hf. induction l as [|x l IH]; cbn [mapM].
  - left. split; [by eexists|]. intros x Hx. by apply elem_of_nil in Hx.
  - destruct (Hf x) as [[y Hy]|Hx].
    + rewrite Hy. cbn. destruct IH as [[[ys Hys] Hall]|[Ht (z & Hz & Hfz)]].
      * left. rewrite Hys. cbn. split; [by eexists|].
        intros z Hz. apply elem_of_cons in Hz as [->|Hz]; eauto.
      * right. rewrite Ht. cbn. split; [done|]. exists z. split; [by right|done].
    + right. rewrite Hx. cbn. split; [done|]. exists x. split; [by left|done].
Qed.

Lemma getParts_outcome (s : string) :
  (∃ parts, getParts s = Ok parts) ∨ getParts s = Throw paramError.
Proof. apply ParserMore.getPartsFrom_outcome. Qed.

Lemma toSegments_outcome (l : list string) :
  ((∃ ys, mapM toSegments l = Ok ys) ∧ ∀ p, p ∈ l → ∃ y, toSegments p = Ok y)
  ∨ (mapM toSegments l = Throw paramError
     ∧ ∃ p, p ∈ l ∧ toSegments p = Throw paramError).
Proof.
  apply mapM_outcome. intros p. unfold toSegments.
  destruct (mapM_outcome getParts paramError (pathSegments p) getParts_outcome)
    as [[H _]|[H _]]; [by left|by right].
Qed.

(** The classification ends or throws the error of [getParts], and it
    throws exactly when a segment of a prerendered page path or of a public
    file path is malformed; then [createRoutesFile] throws the same error
    and nothing is written. *)
Theorem malformed_path_throws (_config : AstroConfig) (routes : list RouteData)
    (pages : list Page.t) (staticFiles : list string)
    (redirects : list (list (list RoutePart))) :
  ((∃ c, collect _config routes pages staticFiles redirects = Ok c)
   ∨ collect _config routes pages staticFiles redirects = Throw paramError) ∧
  (collect _config routes pages staticFiles redirects = Throw paramError ↔
   ∃ p, p ∈ parsedPaths pages staticFiles ∧ toSegments p = Throw paramError) ∧
  (collect _config routes pages staticFiles redirects = Throw paramError →
   createRoutesFile _config routes pages staticFiles redirects = Throw paramError).
Proof.
  split; [|split].
  - rewrite collect_spec_holds.
    destruct (toSegments_outcome (map Page.pathname pages)) as [[[ps ->] _]|[-> _]];
      cbn; [|by right].
    destruct (toSegments_outcome (publicFiles staticFiles)) as [[[fs ->] _]|[-> _]];
      cbn; [left; by eexists|by right].
  - rewrite collect_spec_holds. unfold parsedPaths.
    destruct (toSegments_outcome (map Page.pathname pages))
      as [[[ps ->] Hps]|[-> (p & Hp & Hthrow)]]; cbn.
    + destruct (toSegments_outcome (publicFiles staticFiles))
        as [[[fs ->] Hfs]|[-> (p & Hp & Hthrow)]]; cbn.
      * split; [done|]. intros (p & Hp & Hthrow).
        apply elem_of_app in Hp as [Hp|Hp];
          [destruct (Hps p Hp) as [y Hy]|destruct (Hfs p Hp) as [y Hy]];
          rewrite Hy in Hthrow; discriminate Hthrow.
      * split; [|done]. intros _. exists p. split; [|done].
        apply elem_of_app. by right.
    + split; [|done]. intros _. exists p. split; [|done].
      apply elem_of_app. by left.
  - intros H. unfold createRoutesFile, candidates. by rewrite H.
Qed.

Lemma malformed_path_throws_witness :
  collect Inputs.rootConfig [Inputs.post] [] ["img/[a-b].png"] [] = Throw paramError ∧
  createRoutesFile Inputs.rootConfig [Inputs.post] [] ["img/[a-b].png"] [] = Throw paramError.
Proof.
  destruct (malformed_path_throws Inputs.rootConfig [Inputs.post] [] ["img/[a-b].png"] [])
    as (_ & Hiff & Hthrow).
  assert (collect Inputs.rootConfig [Inputs.post] [] ["img/[a-b].png"] [] = Throw paramError)
    as Hc.
  { apply Hiff. exists "img/[a-b].png". split; [by left|reflexivity]. }
  split; [exact Hc|exact (Hthrow Hc)].
Defined.

End SelectorMore.

(** * The redirects read by the hook *)

Module IntegrationFacts.
Import Integration ParserFacts ParserMore CompilerMore.

Local Arguments String.append !_ _ : simpl nomatch.
Local Open Scope nat_scope.

Lemma matchColonParam_other (c : ascii) (s : string) :
  Ascii.eqb c "/" = false → matchColonParam (String c s) = None.
Proof.
  intros Hc. destruct (Ascii.eqb_spec c "/"); [discriminate|].
  unfold matchColonParam. destruct c as [[] [] [] [] [] [] [] []]; done.
Qed.

(** The first replacement looks for a slash: on a text without one it
    changes nothing, whatever the fuel. *)
Lemma replaceParams_noSlash (fuel : nat) (s : string) :
  noSlash s = true → replaceParams fuel s = s.
Proof.
  revert fuel. induction s as [|c s IH]; intros fuel; [by destruct fuel|].
  unfold noSlash. cbn [all]. rewrite andb_true_iff, negb_true_iff. intros [Hc Hs].
  destruct fuel as [|fuel]; [done|].
  cbn [replaceParams]. by rewrite (matchColonParam_other c s Hc), (IH _ Hs).
Qed.

Lemma splitOn_noSlash (piece s : string) :
  noSlash piece = true → Forall (λ x, noSlash x = true) (splitOn "/" piece s).
Proof.
  revert piece. induction s as [|c s IH]; intros piece Hp; cbn [splitOn].
  - by apply Forall_singleton.
  - destruct (Ascii.eqb c "/") eqn:Hc.
    + constructor; [done|]. by apply IH.
    + apply IH. unfold noSlash in *. rewrite all_app, Hp. cbn. by rewrite Hc.
Qed.

Lemma pathSegments_noSlash (p : string) :
  Forall (λ x, noSlash x = true) (pathSegments p).
Proof.
  unfold pathSegments, filterBoolean. apply Forall_forall. intros s Hs.
  apply list_elem_of_In, filter_In in Hs as [Hin _].
  pose proof (splitOn_noSlash "" (Assets.removeLeadingForwardSlash p) eq_refl) as H.
  rewrite Forall_forall in H. apply H. by apply list_elem_of_In.
Qed.

Lemma mapM_ext_Forall {A B} (f g : A → outcome B) (l : list A) :
  Forall (λ x, f x = g x) l → mapM f l = mapM g l.
Proof.
  induction 1 as [|x l Hx _ IH]; [done|]. cbn [mapM]. by rewrite Hx, IH.
Qed.

Lemma redirect_parameters_unchanged_holds (source : string) :
  redirectSegments source
    = mapM (λ s, getParts (stripQuery s)) (pathSegments source).
Proof.
  unfold redirectSegments. apply mapM_ext_Forall.
  eapply Forall_impl; [apply pathSegments_noSlash|].
  intros s Hs. unfold redirectPart. by rewrite replaceParams_noSlash.
Qed.

(** The rewriting of [:name] to a wildcard is applied to each segment
    after the split on the slash, so it never applies: every redirect
    source is parsed as if only the query were removed. *)
Theorem redirect_parameters_unchanged (source : string) :
  redirectSegments source
    = mapM (λ s, getParts (stripQuery s)) (pathSegments source).
Proof. apply redirect_parameters_unchanged_holds. Qed.

Lemma stripQuery_noQuery (s : string) : noQuery s = true → stripQuery s = s.
Proof.
  induction s as [|c s IH]; [done|]. unfold noQuery. cbn [all].
  rewrite andb_true_iff, negb_true_iff. intros [Hc Hs].
  cbn [stripQuery]. rewrite Hc. cbn. by rewrite (IH Hs).
Qed.

(** What follows the first question mark of a segment is dropped, when it
    has no line terminator. *)
Lemma stripQuery_query (a b : string) :
  noQuery a = true → oneLine b = true → stripQuery (a +:+ String "?" b) = a.
Proof.
  intros Ha Hb. induction a as [|c a IH].
  - cbn. unfold oneLine in Hb. by rewrite Hb.
  - unfold noQuery in Ha. cbn [all] in Ha.
    apply andb_true_iff in Ha as [Hc Ha]. apply negb_true_iff in Hc.
    cbn [String.append stripQuery]. rewrite Hc. cbn. by rewrite (IH Ha).
Qed.

Lemma noQuery_segments (source : string) :
  noQuery source = true → Forall (λ x, noQuery x = true) (pathSegments source).
Proof.
  intros Hs. unfold pathSegments, filterBoolean. apply Forall_forall. intros s Hin.
  apply list_elem_of_In, filter_In in Hin as [Hin _].
  assert (noQuery (Assets.removeLeadingForwardSlash source) = true) as Hl.
  { destruct source as [|c source]; [done|]. unfold noQuery in *. cbn [all] in Hs.
    apply andb_true_iff in Hs as [Hc Hs].
    destruct c as [[] [] [] [] [] [] [] []]; cbn; by rewrite ?Hs. }
  pose proof (splitOn_all (λ c, negb (Ascii.eqb c "?")) "/" "" _ eq_refl Hl) as H.
  rewrite Forall_forall in H. apply H. by apply list_elem_of_In.
Qed.

Lemma redirect_source_literal_holds (source : string) :
  noBracket source = true → noQuery source = true →
  redirectSegments source
    = Ok (map (λ s, [mkPart s false false]) (pathSegments source)).
Proof.
  intros Hb Hq. rewrite redirect_parameters_unchanged_holds. apply mapM_Ok.
  pose proof (pathSegments_literal source Hb) as H1.
  pose proof (noQuery_segments source Hq) as H2.
  rewrite Forall_forall in H1, H2. apply Forall_forall. intros s Hs.
  destruct (H1 s Hs) as [Hne Hnb]. rewrite (stripQuery_noQuery s (H2 s Hs)).
  by apply getParts_literal_holds.
Qed.

(** A redirect source without bracket and without query is read segment by
    segment as literal text; a segment such as [:id] stays the literal
    [:id]. *)
Theorem redirect_source_literal (source : string) :
  noBracket source = true → noQuery source = true →
  redirectSegments source
    = Ok (map (λ s, [mkPart s false false]) (pathSegments source)).
Proof. apply redirect_source_literal_holds. Qed.

Lemma redirect_source_literal_witness :
  redirectSegments "/user/:id"
    = Ok [[mkPart "user" false false]; [mkPart ":id" false false]].
Proof. apply (redirect_source_literal "/user/:id"); reflexivity. Defined.

(** A routes file that exists is never replaced: the hook then writes no
    manifest, whatever the routes. *)
Lemma existing_routes_file _config routes pages staticFiles redirectsFile m :
  buildDone _config routes pages staticFiles redirectsFile true ≠ Ok (Some m).
Proof.
  unfold buildDone.
  destruct (match redirectsFile with Some _ => _ | None => _ end); cbn; congruence.
Qed.

(** The query of a segment of a redirect source is removed before the
    segment is parsed. *)
Theorem redirect_query_dropped (a b : string) :
  noSlash a = true → noSlash b = true → noQuery a = true → oneLine b = true →
  redirectPart (a +:+ String "?" b) = getParts a.
Proof.
  intros Ha Hb Hq Hl. unfold redirectPart.
  rewrite replaceParams_noSlash, stripQuery_query; try done.
  unfold noSlash in *. rewrite all_app, Ha. cbn. by rewrite Hb.
Qed.

Lemma redirect_query_dropped_witness :
  redirectPart "search?q=:term" = Ok [mkPart "search" false false].
Proof. apply (redirect_query_dropped "search" "q=:term"); reflexivity. Defined.

Lemma readRedirects_spec (lines : list string) (redirects : list (list (list RoutePart))) :
  readRedirects lines redirects =
    (ps ← mapM redirectSegments (redirectSources lines); Ok (redirects ++ ps)%list).
Proof.
  revert redirects. induction lines as [|line lines IH]; intros redirects.
  - cbn. by rewrite app_nil_r.
  - cbn [readRedirects]. unfold redirectSources. cbn [omap list_omap].
    fold (redirectSources lines). unfold redirectSource at 1.
    destruct (splitOn " " "" line) as [|source [|target rest]]; [apply IH..|].
    cbn [mapM]. destruct (redirectSegments source) as [p| |]; cbn; [|done..].
    rewrite IH. destruct (mapM redirectSegments _) as [ps| |]; cbn; [|done..].
    by rewrite <- app_assoc.
Qed.

(** From the redirects file to the routes file: the lines with fewer than
    two fields are skipped, and when the sources of the others have no
    bracket and no query, the hook calls [createRoutesFile] with their
    segments as literal text, so that a source [/user/:id] is excluded as
    the literal path [/user/:id]. *)
Theorem buildDone_literal_redirects _config routes pages staticFiles lines :
  Forall (λ source, noBracket source = true ∧ noQuery source = true)
    (redirectSources lines) →
  buildDone _config routes pages staticFiles (Some lines) false
    = createRoutesFile _config routes pages staticFiles
        (map literalSegments (redirectSources lines)).
Proof.
  intros H. unfold buildDone. rewrite readRedirects_spec.
  rewrite (mapM_Ok redirectSegments literalSegments); [done|].
  eapply Forall_impl; [exact H|]. intros source [Hb Hq].
  by apply redirect_source_literal_holds.
Qed.

Lemma buildDone_literal_redirects_witness :
  buildDone Inputs.rootConfig [Inputs.post] [] []
      (Some ["/user/:id /u/:id 301"; ""; "# comment"]) false
    = Ok (Some (mkManifest 1 ["/*"] ["/#"; "/_astro/*"; "/user/:id"])).
Proof.
  rewrite (buildDone_literal_redirects Inputs.rootConfig [Inputs.post] [] []
             ["/user/:id /u/:id 301"; ""; "# comment"]).
  - vm_compute. reflexivity.
  - repeat constructor.
Defined.

End IntegrationFacts.
